(** * SkewT-React: the geometry engine of the SkewT-logP diagram

    A shallow embedding of the TypeScript sources
    - [src/utils/conversions.ts]     (module [Conversions]),
    - [src/utils/windBarbs.ts]       (module [WindBarbs]),
    - [src/utils/drawFunctions.ts]   (module [DrawFunctions]),
    - [src/components/SkewT.tsx]     (module [SkewT]),
    - [src/constants.ts], [src/types.ts],
    over a model of the JavaScript values they compute with (module [JS])
    and of the d3 functions they call (module [D3]).

    JavaScript numbers are IEEE-754 binary64 values: they are modelled by
    Rocq's primitive floats, so every arithmetic step rounds as it does in
    the browser.  The SVG elements a function appends are modelled by the
    list of elements it produces, attributes kept as structured values. *)

From Stdlib Require Import ZArith List String Ascii Bool Floats Lia.
From Stdlib Require Import DecimalString.
From Stdlib Require DecimalPos DecimalZ.
From Equations Require Import Equations.
Import ListNotations.

Set Warnings "-inexact-float".

Open Scope string_scope.
Open Scope float_scope.

(** ** JavaScript values *)

Module JS.

Definition number := float.

(** Reading a property of [undefined] throws a [TypeError]; a handler
    that can throw returns a [result]. *)
Inductive result (A : Type) : Type :=
| Ok (a : A)
| TypeError.
Arguments Ok {A} a.
Arguments TypeError {A}.

Definition bind {A B} (r : result A) (k : A -> result B) : result B :=
  match r with
  | Ok a => k a
  | TypeError => TypeError
  end.

(** [a[i]]: the element at index [i], [undefined] ([None]) out of range. *)
Definition index {A} (a : list A) (i : Z) : option A :=
  if (i <? 0)%Z then None else nth_error a (Z.to_nat i).

(** An optional numeric field holds a number or is absent ([undefined],
    [null]); [typeof v === 'number' && p v]. *)
Definition isNumberAnd (o : option number) (p : number -> bool) : bool :=
  match o with
  | Some v => p v
  | None => false
  end.

Definition isNaN (v : number) : bool := is_nan v.

(** The integer part of a finite number, rounded towards minus infinity. *)
Definition floorZ (v : number) : option Z :=
  match Prim2SF v with
  | S754_zero _ => Some 0%Z
  | S754_finite s m e => Some (Z.shiftl (if s then Z.neg m else Z.pos m) e)
  | _ => None
  end.

Definition ofZ (z : Z) : number :=
  match z with
  | Z0 => 0
  | Zpos _ => of_uint63 (Uint63.of_Z z)
  | Zneg p => - of_uint63 (Uint63.of_Z (Zpos p))
  end.

(** From 2^52 on every binary64 value is an integer. *)
Definition two52 : number := 4503599627370496.

Definition Math_abs (v : number) : number := abs v.

Definition Math_floor (v : number) : number :=
  if abs v <? two52 then
    if v =? 0 then v
    else match floorZ v with
         | Some z => ofZ z
         | None => v
         end
  else v.

Definition Math_ceil (v : number) : number := - Math_floor (- v).

(** [Math.round]: the nearest integer, a tie going towards plus infinity;
    a result of zero keeps the sign of the argument. *)
Definition Math_round (v : number) : number :=
  if abs v <? two52 then
    if v =? 0 then v
    else
      let r := Math_floor v in
      let n := if 0.5 <=? v - r then r + 1 else r in
      if (n =? 0) && (v <? 0) then -0 else n
  else v.

(** [Math.max] of two arguments: [NaN] if either is, and [+0] above [-0]. *)
Definition Math_max (a b : number) : number :=
  if is_nan a || is_nan b then nan
  else if a <? b then b
  else if b <? a then a
  else if get_sign a then b else a.

(** [v | 0]: ToInt32. *)
Definition toInt32 (v : number) : Z :=
  match Prim2SF v with
  | S754_finite s m e =>
      let t := Z.shiftl (Z.pos m) e in
      let u := ((if s then (- t) else t) mod 4294967296)%Z in
      if (u <? 2147483648)%Z then u else (u - 4294967296)%Z
  | _ => 0%Z
  end.

(** [Some z] when [v] is the integer [z] and [|z| <= 2^53]: the integers
    whose decimal digits are the digits [ToString] prints. *)
Definition integerValue (v : number) : option Z :=
  match floorZ v with
  | Some z =>
      if (ofZ z =? v) && (Z.abs z <=? 9007199254740992)%Z then Some z else None
  | None => None
  end.

(** The decimal digits of an integer, with its sign. *)
Definition decimal (z : Z) : string := NilZero.string_of_int (Z.to_int z).

(** [ToString] of a number, for [NaN], the infinities and the integers up
    to 2^53 in magnitude.  [None] stands for the decimal form of any other
    number (a fraction, or a larger magnitude), which is not modelled: such
    a form contains a [.] or an [e], or has more than sixteen digits. *)
Definition numberToString (v : number) : option string :=
  if is_nan v then Some "NaN"
  else if v =? infinity then Some "Infinity"
  else if v =? neg_infinity then Some "-Infinity"
  else match integerValue v with
       | Some z => Some (NilZero.string_of_int (Z.to_int z))
       | None => None
       end.

(** [s + v] for a string [s] and a number [v]. *)
Definition concatNumber (s : string) (v : number) : option string :=
  option_map (fun t => s ++ t) (numberToString v).

Section Loops.

Context {St : Type}.

(** [for (let i = i0; i < n; i++) body]; [None] when the loop is still
    running after [fuel] iterations. *)
Fixpoint for_lt (fuel : nat) (i n : number) (body : St -> St) (s : St)
  : option St :=
  if i <? n then
    match fuel with
    | O => None
    | S fuel' => for_lt fuel' (i + 1) n body (body s)
    end
  else Some s.

(** The number of iterations a bound [n] allows when it is finite. *)
Definition tripCount (n : number) : nat :=
  match floorZ (Math_ceil n) with
  | Some z => Z.to_nat z
  | None => 0
  end.

(** [for (let i = 0; i < n; i++) body]; [None] when it does not end. *)
Definition forLoop (n : number) (body : St -> St) (s : St) : option St :=
  for_lt (tripCount n) 0 n body s.

End Loops.

(** [l.forEach(f)] for a callback that may not end. *)
Fixpoint forEach {A B} (f : A -> option B) (l : list A) : option (list B) :=
  match l with
  | [] => Some []
  | a :: l' =>
      match f a with
      | None => None
      | Some b => option_map (cons b) (forEach f l')
      end
  end.

End JS.

Import JS.

(** ** The engine's transcendental functions

    ECMAScript leaves [Math.log], [Math.exp] and [Math.pow] "implementation
    approximated" apart from their values at the edges of their domains.
    The drawing functions below take them as parameters; [Engine] is one
    implementation (series evaluated in binary64), used to evaluate the
    functions on concrete frames. *)

Module Engine.

Definition ln2 : number := 0.6931471805599453.

(** [1/k + z2/(k+2) + z2^2/(k+4) + ...], [n+1] terms. *)
Fixpoint atanh_sum (n : nat) (k z2 : number) : number :=
  match n with
  | O => 1 / k
  | S n' => 1 / k + z2 * atanh_sum n' (k + 2) z2
  end.

Definition log (v : number) : number :=
  if is_nan v || (v <? 0) then nan
  else if v =? 0 then neg_infinity
  else if v =? infinity then infinity
  else
    let (m, e) := Z.frexp v in
    let (m, e) := if m <? 0.7071067811865476 then (m * 2, (e - 1)%Z) else (m, e) in
    let z := (m - 1) / (m + 1) in
    2 * z * atanh_sum 16 1 (z * z) + ofZ e * ln2.

(** [1 + r/i * (1 + r/(i+1) * (1 + ...))], the exponential series. *)
Fixpoint exp_sum (n : nat) (i r : number) : number :=
  match n with
  | O => 1
  | S n' => 1 + r / i * exp_sum n' (i + 1) r
  end.

Definition exp (v : number) : number :=
  if is_nan v then nan
  else if 710 <? v then infinity
  else if v <? -746 then 0
  else
    let k := Math_round (v / ln2) in
    let r := v - k * ln2 in
    match floorZ k with
    | Some z => Z.ldexp (exp_sum 22 1 r) z
    | None => nan
    end.

Definition isOddInteger (v : number) : bool :=
  match integerValue v with
  | Some z => Z.odd z
  | None => false
  end.

Definition isInteger (v : number) : bool :=
  is_finite v && (Math_floor v =? v).

(** [Math.pow]: the cases ECMAScript fixes, then [exp (e * log b)]. *)
Definition pow (b e : number) : number :=
  if is_nan e then nan
  else if e =? 0 then 1
  else if is_nan b then nan
  else if e =? infinity then
    (if 1 <? abs b then infinity else if abs b =? 1 then nan else 0)
  else if e =? neg_infinity then
    (if 1 <? abs b then 0 else if abs b =? 1 then nan else infinity)
  else if b =? infinity then (if 0 <? e then infinity else 0)
  else if b =? neg_infinity then
    (if 0 <? e then (if isOddInteger e then neg_infinity else infinity)
     else (if isOddInteger e then -0 else 0))
  else if b =? 0 then
    (if get_sign b then
       (if 0 <? e then (if isOddInteger e then -0 else 0)
        else (if isOddInteger e then neg_infinity else infinity))
     else (if 0 <? e then 0 else infinity))
  else if b <? 0 then
    (if isInteger e then
       (if isOddInteger e then - exp (e * log (- b)) else exp (e * log (- b)))
     else nan)
  else exp (e * log b).

End Engine.

(** ** The d3 functions the sources call (d3 v7) *)

Module D3.

(** [d3.range(start, stop, step)]: [n = max(0, ceil((stop - start) / step)) | 0]
    values [start + i * step]. *)
Definition range (start stop step : number) : list number :=
  let n := toInt32 (Math_max 0 (Math_ceil ((stop - start) / step))) in
  map (fun i => start + ofZ (Z.of_nat i) * step) (seq 0 (Z.to_nat n)).

Section Bisector.

Context {A : Type} (f : A -> number).

(** The search loop of [bisector(f).left]: [mid = (lo + hi) >>> 1] (the
    indices are non-negative and below 2^31), [lo = mid + 1] when
    [ascending(f(a[mid]), x) < 0], that is when [f(a[mid]) < x], and
    [hi = mid] otherwise, while [lo < hi]. *)
Equations? bisect_loop (a : list A) (x : number) (lo hi : Z) : result Z
  by wf (Z.to_nat (hi - lo)) lt :=
  bisect_loop a x lo hi with Z_lt_dec lo hi := {
    | right _ => Ok lo
    | left _ with index a ((lo + hi) / 2) := {
        | None => TypeError
        | Some d =>
            if f d <? x
            then bisect_loop a x ((lo + hi) / 2 + 1)%Z hi
            else bisect_loop a x lo ((lo + hi) / 2)%Z } }.
Proof.
  all: assert (lo <= (lo + hi) / 2 < hi)%Z
    by (split; [apply Z.div_le_lower_bound | apply Z.div_lt_upper_bound]; lia).
  all: lia.
Qed.

(** [bisector(f).left(a, x, lo, hi)]; [ascending(x, x) !== 0] exactly
    when [x] is [NaN]. *)
Definition bisectLeft (a : list A) (x : number) (lo hi : Z) : result Z :=
  if (lo <? hi)%Z then
    if is_nan x then Ok hi else bisect_loop a x lo hi
  else Ok lo.

End Bisector.

(** [normalize(a, b)] of d3-scale. *)
Definition normalize (a b : number) (v : number) : number :=
  let b' := b - a in
  if is_nan b' then nan
  else if b' =? 0 then 0.5
  else (v - a) / b'.

(** [interpolateNumber(a, b)] of d3-interpolate. *)
Definition interpolateNumber (a b t : number) : number := a * (1 - t) + b * t.

(** [bimap(domain, range, interpolate)]: a two-point piecewise map. *)
Definition bimap (d0 d1 r0 r1 : number) (v : number) : number :=
  if d1 <? d0 then interpolateNumber r1 r0 (normalize d1 d0 v)
  else interpolateNumber r0 r1 (normalize d0 d1 v).

(** [d3.scaleLinear().range([r0, r1]).domain([d0, d1])]; the scale of
    [NaN] is [undefined], which arithmetic turns into [NaN]. *)
Definition scaleLinear (d0 d1 r0 r1 : number) (v : number) : number :=
  if is_nan v then nan else bimap d0 d1 r0 r1 v.

Section Log.

Variables (Math_log Math_exp : number -> number).

(** The transform of a log scale: [Math.log], reflected for a domain
    that starts below zero. *)
Definition transformLog (d0 : number) (v : number) : number :=
  if d0 <? 0 then - Math_log (- v) else Math_log v.

Definition transformExp (d0 : number) (v : number) : number :=
  if d0 <? 0 then - Math_exp (- v) else Math_exp v.

(** [d3.scaleLog().range([r0, r1]).domain([d0, d1])]. *)
Definition scaleLog (d0 d1 r0 r1 : number) (v : number) : number :=
  if is_nan v then nan
  else bimap (transformLog d0 d0) (transformLog d0 d1) r0 r1 (transformLog d0 v).

(** [scale.invert] of that scale. *)
Definition scaleLog_invert (d0 d1 r0 r1 : number) (v : number) : number :=
  transformExp d0 (bimap r0 r1 (transformLog d0 d0) (transformLog d0 d1) v).

End Log.

Section Line.

Context {A : Type}.

(** The loop of [d3.line()]: a point opens a line when none is open
    ([lineStart]), an undefined datum closes the open one ([lineEnd]),
    and the end of the data closes it too.  [cur] holds the points of
    the open line, last first. *)
Fixpoint line_loop (defined : A -> bool) (pt : A -> number * number)
         (data : list A) (defined0 : bool) (cur : list (number * number))
  : list (list (number * number)) :=
  match data with
  | [] => if defined0 then [rev cur] else []
  | d :: rest =>
      if defined d then
        line_loop defined pt rest true (pt d :: (if defined0 then cur else []))
      else if defined0 then rev cur :: line_loop defined pt rest false []
      else line_loop defined pt rest false []
  end.

(** [d3.line().x(x).y(y).defined(defined)(data)] with the default linear
    curve: the sub-paths of the generated path, each the list of points
    it joins by straight segments ([M p0 L p1 L p2 ...]). *)
Definition line (x y : A -> number) (defined : A -> bool) (data : list A)
  : list (list (number * number)) :=
  line_loop defined (fun d => (x d, y d)) data false [].

End Line.

End D3.

(** ** [src/types.ts] *)

Record SkewTMeasurement : Type := {
  press : number;
  hght : option number;
  temp : option number;
  dwpt : option number;
  wdir : option number;
  wspd : option number
}.

(** ** [src/constants.ts] *)

Module Constants.
Definition DEFAULT_WIDTH : number := 750.
Definition DEFAULT_HEIGHT : number := 620.
Definition margin_top : number := 30.
Definition margin_right : number := 40.
Definition margin_bottom : number := 20.
Definition margin_left : number := 30.
Definition DEFAULT_BASE_PRESSURE : number := 1050.
Definition DEFAULT_TOP_PRESSURE : number := 100.
Definition STANDARD_PRESSURE_LINES : list number :=
  [1000; 850; 700; 500; 300; 200; 100; 50].
Definition STANDARD_PRESSURE_TICKS : list number :=
  [950; 850; 750; 650; 550; 450; 350; 250; 150; 50].
Definition DEFAULT_TEMP_RANGE : number * number := (-70, 50).
Definition SKEW_ANGLE : number := 55.
Definition DEFAULT_BARB_SIZE : number := 25.
Definition DEFAULT_WIND_SPEED_UNIT : string := "kmh".
End Constants.

(** ** [src/utils/conversions.ts] *)

Module Conversions.

Definition convertWindSpeed (msvalue : number) (unit : string) : number :=
  match unit with
  | "kt" => msvalue * 1.943844492
  | "kmh" => msvalue * 3.6
  | _ => msvalue
  end.

(** A JavaScript string as the list of its UTF-16 code units. *)
Definition codeUnits : Type := list N.

(** The code points [String.prototype.trim] strips: WhiteSpace (tab,
    vertical tab, form feed, space, no-break space, U+FEFF and the Unicode
    space separators) and LineTerminator (LF, CR, U+2028, U+2029). *)
Definition isWhiteSpace (c : N) : bool :=
  ((c =? 9) || (c =? 10) || (c =? 11) || (c =? 12) || (c =? 13) || (c =? 32)
   || (c =? 160) || (c =? 5760) || ((8192 <=? c) && (c <=? 8202))
   || (c =? 8232) || (c =? 8233) || (c =? 8239) || (c =? 8287)
   || (c =? 12288) || (c =? 65279))%N.

Fixpoint trimStart (s : codeUnits) : codeUnits :=
  match s with
  | [] => []
  | c :: s' => if isWhiteSpace c then trimStart s' else s
  end.

Definition trimEnd (s : codeUnits) : codeUnits := rev (trimStart (rev s)).

(** [s.trim()] *)
Definition trim (s : codeUnits) : codeUnits := trimEnd (trimStart s).

(** [normalizeString(input)]; [None] is a missing ([undefined], [null])
    argument, which like the empty string is falsy. *)
Definition normalizeString (input : option codeUnits) : codeUnits :=
  match input with
  | None => []
  | Some [] => []
  | Some s => trim s
  end.

End Conversions.

(** ** The SVG elements the drawing functions append *)

Module Svg.

(** [<line x1 x2 y1 y2 class>] *)
Record lineElem : Type := {
  x1 : number; x2 : number; y1 : number; y2 : number;
  lineClass : string
}.

(** The shapes inside a wind-barb glyph: a [<line x1 x2 y1 y2>] or a
    [<polyline points class>]. *)
Inductive shape : Type :=
| Line (x1 x2 y1 y2 : number)
| Polyline (points : list (number * number)) (class : string).

(** [<g id=...>] inside [<defs>]. *)
Record glyph : Type := {
  glyphId : option string;
  shapes : list shape
}.

(** The [transform] attribute: empty, or
    [translate(tx,ty) rotate(angle)]. *)
Inductive transformAttr : Type :=
| NoTransform
| TranslateRotate (tx ty angle : number).

(** [<use xlink:href=... transform=...>] *)
Record useElem : Type := {
  href : option string;
  transform : transformAttr
}.

(** What a [<use>] element shows: the glyph whose id its [href] names
    after the [#], nothing when there is no such glyph. *)
Definition resolve (defs : list glyph) (u : useElem) : option glyph :=
  match href u with
  | Some h =>
      find (fun g => match glyphId g with
                     | Some i => String.eqb ("#" ++ i) h
                     | None => false
                     end) defs
  | None => None
  end.

(** A [<path>]: its sub-paths, each a list of points joined in order. *)
Definition path := list (list (number * number)).

End Svg.

Import Svg.

(** [undefined] used as a number is [NaN]. *)
Definition toNumber (o : option number) : number :=
  match o with
  | Some v => v
  | None => nan
  end.

(** ** [src/utils/windBarbs.ts] *)

Module WindBarbs.

Import Conversions.

Definition flagsOf (d : number) : number := Math_floor (d / 50).

Definition pennantsOf (d : number) : number :=
  Math_floor ((d - flagsOf d * 50) / 10).

Definition halfpennantsOf (d : number) : number :=
  Math_floor ((d - flagsOf d * 50 - pennantsOf d * 10) / 5).

(** The body of [speeds.forEach]: the glyph [thisbarb] for speed [d];
    the loop state is [px] and the shapes appended so far. *)
Definition thisbarb (barbsize d : number) : option glyph :=
  let flags := flagsOf d in
  let pennants := pennantsOf d in
  let halfpennants := halfpennantsOf d in
  let px := barbsize in
  let stem := Line 0 0 0 barbsize in
  match forLoop flags
          (fun '(px, g) =>
             (px - 7, (g ++ [Polyline [(0, px); (-10, px); (0, px - 4)] "flag"])%list))
          (px, [stem]) with
  | None => None
  | Some s1 =>
      match forLoop pennants
              (fun '(px, g) => (px - 3, (g ++ [Line 0 (-10) px (px + 4)])%list)) s1 with
      | None => None
      | Some s2 =>
          match forLoop halfpennants
                  (fun '(px, g) => (px - 3, (g ++ [Line 0 (-5) px (px + 2)])%list)) s2 with
          | None => None
          | Some s3 =>
              Some {| glyphId := concatNumber "barb" d; shapes := snd s3 |}
          end
      end
  end.

Definition speeds : list number := D3.range 5 105 5.

(** [makeWindbarbs(container, barbsize)]: the glyphs appended to [<defs>]. *)
Definition makeWindbarbs (barbsize : number) : option (list glyph) :=
  forEach (thisbarb barbsize) speeds.

Section Draw.

Variables (topp w : number) (y : number -> number).

(** The filter for valid wind data. *)
Definition validWind (d : SkewTMeasurement) : bool :=
  match wdir d, wspd d with
  | Some wd, Some ws => (0 <=? wd) && (0 <=? ws) && (topp <=? press d)
  | _, _ => false
  end.

(** Knots, rounded to the nearest 5. *)
Definition kts (d : SkewTMeasurement) : number :=
  Math_round (convertWindSpeed (toNumber (wspd d)) "kt" / 5) * 5.

Definition barbUse (d : SkewTMeasurement) : useElem :=
  {| href := concatNumber "#barb" (kts d);
     transform := TranslateRotate w (y (press d)) (toNumber (wdir d) + 180) |}.

(** [drawWindBarbs(data, topp, barbgroup, w, y)]: the [<use>] elements
    appended to the barb group. *)
Definition drawWindBarbs (data : list SkewTMeasurement) : list useElem :=
  map barbUse (filter validWind data).

End Draw.

End WindBarbs.

(** ** [src/utils/drawFunctions.ts] *)

Module DrawFunctions.

Import Conversions.

(** [typeof d.temp === 'number' && d.temp > -1000], and the same test
    on the dew point. *)
Definition definedTemp (d : SkewTMeasurement) : bool :=
  isNumberAnd (temp d) (fun t => -1000 <? t).

Definition definedDwpt (d : SkewTMeasurement) : bool :=
  isNumberAnd (dwpt d) (fun t => -1000 <? t).

(** The readout of a focus group: the value [v] in degrees Celsius
    ([Degrees]), [`-- ${v} m`] ([Metres]) or [`${v} ${unit}`] ([Speed]). *)
Inductive label : Type :=
| Degrees (v : number)
| Metres (v : number)
| Speed (v : number) (unit : string).

(** A focus group: whether it is displayed, its [translate] transform
    and the text of its label, the last two absent until first set. *)
Record focus : Type := {
  display : bool;
  position : option (number * number);
  text : option label
}.

Record tooltips : Type := {
  tmpcfocus : focus;
  dwpcfocus : focus;
  hghtfocus : focus;
  wspdfocus : focus
}.

(** The pointer events the overlay listens to; [Mousemove py] carries the
    pointer's vertical pixel coordinate. *)
Inductive pointerEvent : Type :=
| Mouseover
| Mouseout
| Mousemove (py : number).

Definition hidden : focus :=
  {| display := false; position := None; text := None |}.

(** The four focus groups as [setupTooltips] creates them. *)
Definition initialTooltips : tooltips :=
  {| tmpcfocus := hidden; dwpcfocus := hidden;
     hghtfocus := hidden; wspdfocus := hidden |}.

Definition setDisplay (b : bool) (f : focus) : focus :=
  {| display := b; position := position f; text := text f |}.

Definition mouseover (t : tooltips) : tooltips :=
  {| tmpcfocus := setDisplay true (tmpcfocus t);
     dwpcfocus := setDisplay true (dwpcfocus t);
     hghtfocus := setDisplay true (hghtfocus t);
     wspdfocus := setDisplay true (wspdfocus t) |}.

Definition mouseout (t : tooltips) : tooltips :=
  {| tmpcfocus := setDisplay false (tmpcfocus t);
     dwpcfocus := setDisplay false (dwpcfocus t);
     hghtfocus := setDisplay false (hghtfocus t);
     wspdfocus := setDisplay false (wspdfocus t) |}.

(** [getSmallestPressureValue(measurements)]; [None] is a missing
    array. *)
Definition getSmallestPressureValue
           (measurements : option (list SkewTMeasurement)) : number :=
  match measurements with
  | None => 100
  | Some [] => 100
  | Some ((m0 :: _) as ms) =>
      fold_left (fun min current =>
                   if press current <? min then press current else min)
                ms (press m0)
  end.

Section Frame.

Variables (x y : number -> number) (basep tan : number).

(** The skew offset of pressure [p]. *)
Definition skewX (t p : number) : number := x t + (y basep - y p) / tan.

Section Background.

Variables (Math_pow : number -> number -> number).
Variables (w h : number) (plines : list number) (topp : number).

(** Skewed temperature lines. *)
Definition templineElem (d : number) : lineElem :=
  {| x1 := x d - 0.5 + (y basep - y 100) / tan;
     x2 := x d - 0.5;
     y1 := 0;
     y2 := h;
     lineClass := if d =? 0 then "tempzero" else "gridline" |}.

Definition templines : list lineElem :=
  map templineElem (D3.range (-100) 45 10).

(** Logarithmic pressure lines. *)
Definition pressurelineElem (d : number) : lineElem :=
  {| x1 := 0; x2 := w; y1 := y d; y2 := y d; lineClass := "gridline" |}.

Definition pressurelines : list lineElem := map pressurelineElem plines.

(** The array to plot dry adiabats. *)
Definition pp : list number := D3.range topp (basep + 1) 10.
Definition dryad : list number := D3.range (-30) 240 20.

Definition all : list (list (number * number)) :=
  map (fun d => map (fun p => (d, p)) pp) dryad.

Definition drylineXVal (dp : number * number) : number :=
  let '(d, p) := dp in
  x ((273.15 + d) / Math_pow (1000 / p) 0.286 - 273.15)
  + (y basep - y p) / tan.

Definition drylineX (dp : number * number) : number :=
  let xVal := drylineXVal dp in
  if isNaN xVal then 0 else xVal.

Definition drylineY (dp : number * number) : number := y (snd dp).

Definition dryline : list (number * number) -> path :=
  D3.line drylineX drylineY (fun _ => true).

Definition dryadiabats : list path := map dryline all.

(** Line along right edge of plot. *)
Definition rightEdge : lineElem :=
  {| x1 := w - 0.5; x2 := w - 0.5; y1 := 0; y2 := h;
     lineClass := "gridline" |}.

(** The geometry [drawBackground] appends (the clip rectangle, the
    axes and their labels are left to the rendering surface). *)
Record background : Type := {
  bgTemplines : list lineElem;
  bgPressurelines : list lineElem;
  bgDryadiabats : list path;
  bgRightEdge : lineElem
}.

Definition drawBackground : background :=
  {| bgTemplines := templines;
     bgPressurelines := pressurelines;
     bgDryadiabats := dryadiabats;
     bgRightEdge := rightEdge |}.

End Background.

(** The samples kept for the profile lines. *)
Definition skewtline (data : list SkewTMeasurement) : list SkewTMeasurement :=
  filter (fun d => definedTemp d && definedDwpt d) data.

(** Temperature line generator. *)
Definition templineX (d : SkewTMeasurement) : number :=
  x (toNumber (temp d)) + (y basep - y (press d)) / tan.

Definition lineY (d : SkewTMeasurement) : number := y (press d).

Definition templine : list SkewTMeasurement -> path :=
  D3.line templineX lineY definedTemp.

(** Dew point line generator. *)
Definition dewpointlineX (d : SkewTMeasurement) : number :=
  x (toNumber (dwpt d)) + (y basep - y (press d)) / tan.

Definition dewpointline : list SkewTMeasurement -> path :=
  D3.line dewpointlineX lineY definedDwpt.

(** [drawTempDewLines(data, ...)]: the temperature paths, the dew point
    paths (one of each per element of [skewtlines = [skewtline]]) and
    the returned [skewtline]. *)
Definition drawTempDewLines (data : list SkewTMeasurement)
  : list path * list path * list SkewTMeasurement :=
  let skewtlines := [skewtline data] in
  (map templine skewtlines, map dewpointline skewtlines, skewtline data).

Section Tooltips.

Variables (w : number) (unit : string).

(** The part of the [mousemove] handler after the sample [d] is
    chosen: each focus group is positioned and shown, or hidden. *)
Definition showSample (d : SkewTMeasurement) (t : tooltips) : tooltips :=
  {| tmpcfocus :=
       match temp d with
       | Some v =>
           if -1000 <? v then
             {| display := true;
                position := Some (x v + (y basep - y (press d)) / tan, y (press d));
                text := Some (Degrees (Math_round v)) |}
           else setDisplay false (tmpcfocus t)
       | None => setDisplay false (tmpcfocus t)
       end;
     dwpcfocus :=
       match dwpt d with
       | Some v =>
           if -1000 <? v then
             {| display := true;
                position := Some (x v + (y basep - y (press d)) / tan, y (press d));
                text := Some (Degrees (Math_round v)) |}
           else setDisplay false (dwpcfocus t)
       | None => setDisplay false (dwpcfocus t)
       end;
     hghtfocus :=
       match hght d with
       | Some v =>
           {| display := true;
              position := Some (0, y (press d));
              text := Some (Metres (Math_round v)) |}
       | None =>
           {| display := false;
              position := Some (0, y (press d));
              text := text (hghtfocus t) |}
       end;
     wspdfocus :=
       match wspd d with
       | Some v =>
           if 0 <=? v then
             {| display := true;
                position := Some (w - 65, y (press d));
                text := Some (Speed (Math_round (convertWindSpeed v unit * 10) / 10) unit) |}
           else
             {| display := false;
                position := Some (w - 65, y (press d));
                text := text (wspdfocus t) |}
       | None =>
           {| display := false;
              position := Some (w - 65, y (press d));
              text := text (wspdfocus t) |}
       end |}.

(** The sample the handler picks for the pressure [y0] under the
    pointer: [i = bisectTemp(data, y0, 1, data.length - 1)], then the
    nearer in pressure of [data[i - 1]] and [data[i]]. *)
Definition nearest (data : list SkewTMeasurement) (y0 : number)
  : result SkewTMeasurement :=
  bind (D3.bisectLeft press data y0 1 (Z.of_nat (List.length data) - 1))
       (fun i =>
          match index data (i - 1) with
          | None => TypeError
          | Some d0 =>
              match index data i with
              | None => TypeError
              | Some d1 =>
                  Ok (if Math_abs (y0 - press d0) <? Math_abs (y0 - press d1)
                      then d0 else d1)
              end
          end).

(** The [mousemove] handler of [setupTooltips]; [py] is the pointer's
    vertical pixel coordinate. *)
Definition mousemove (y_invert : number -> number)
           (data : list SkewTMeasurement) (py : number) (t : tooltips)
  : result tooltips :=
  bind (nearest data (y_invert py)) (fun d => Ok (showSample d t)).

(** The three listeners of the overlay. *)
Definition handle (y_invert : number -> number)
           (data : list SkewTMeasurement) (e : pointerEvent) (t : tooltips)
  : result tooltips :=
  match e with
  | Mouseover => Ok (mouseover t)
  | Mouseout => Ok (mouseout t)
  | Mousemove py => mousemove y_invert data py t
  end.

End Tooltips.

End Frame.

End DrawFunctions.

(** ** [src/components/SkewT.tsx] *)

Module SkewT.

Import Constants.

(** The component's own copy of the conversion. *)
Definition convertWindSpeed (msvalue : number) (unit : string) : number :=
  match unit with
  | "kt" => msvalue * 1.943844492
  | "kmh" => msvalue * 3.6
  | _ => msvalue
  end.

Definition Math_PI : number := 3.141592653589793.

Section Component.

Variables (Math_log Math_exp Math_tan : number -> number).
Variables (Math_pow : number -> number -> number).

(** The props. *)
Variables (data : list SkewTMeasurement).
Variables (width height : number) (speedUnit : string).

(** Chart dimensions and constants. *)
Definition w : number := width - margin_left - margin_right.
Definition h : number := height - margin_top - margin_bottom - 50.
Definition deg2rad : number := Math_PI / 180.
Definition tan : number := Math_tan (SKEW_ANGLE * deg2rad).
Definition basep : number := DEFAULT_BASE_PRESSURE.
Definition topp : number :=
  Math_max 50 (DrawFunctions.getSmallestPressureValue (Some data) - 10).
Definition plines : list number := STANDARD_PRESSURE_LINES.
Definition pticks : list number := (STANDARD_PRESSURE_TICKS ++ [topp])%list.

(** The scales. *)
Definition x : number -> number :=
  D3.scaleLinear (fst DEFAULT_TEMP_RANGE) (snd DEFAULT_TEMP_RANGE) 0 w.
Definition y : number -> number := D3.scaleLog Math_log topp basep 0 h.
Definition y_invert : number -> number :=
  D3.scaleLog_invert Math_log Math_exp topp basep 0 h.

(** Filter valid data. *)
Definition skewtline : list SkewTMeasurement :=
  filter (fun d => isNumberAnd (temp d) (fun t => -1000 <? t)
                   && isNumberAnd (dwpt d) (fun t => -1000 <? t)) data.

Definition skewtlines : list (list SkewTMeasurement) := [skewtline].

(** [drawBackground]: skewed temperature lines. *)
Definition templineElem (d : number) : lineElem :=
  {| x1 := x d - 0.5 + (y basep - y 100) / tan;
     x2 := x d - 0.5;
     y1 := 0;
     y2 := h;
     lineClass := if d =? 0 then "tempzero" else "gridline" |}.

Definition bgTemplines : list lineElem :=
  map templineElem (D3.range (-100) 45 10).

(** Logarithmic pressure lines. *)
Definition pressurelines : list lineElem :=
  map (fun d => {| x1 := 0; x2 := w; y1 := y d; y2 := y d;
                   lineClass := "gridline" |}) plines.

(** The array to plot dry adiabats. *)
Definition pp : list number := D3.range topp (basep + 1) 10.
Definition dryad : list number := D3.range (-30) 240 20.

Definition all : list (list (number * number)) :=
  map (fun d => map (fun p => (d, p)) pp) dryad.

Definition drylineXVal (dp : number * number) : number :=
  let '(d, p) := dp in
  x ((273.15 + d) / Math_pow (1000 / p) 0.286 - 273.15)
  + (y basep - y p) / tan.

Definition drylineX (dp : number * number) : number :=
  let xVal := drylineXVal dp in
  if isNaN xVal then 0 else xVal.

Definition drylineY (dp : number * number) : number := y (snd dp).

Definition dryline : list (number * number) -> path :=
  D3.line drylineX drylineY (fun _ => true).

Definition dryadiabats : list path := map dryline all.

(** Line along right edge of plot. *)
Definition rightEdge : lineElem :=
  {| x1 := w - 0.5; x2 := w - 0.5; y1 := 0; y2 := h;
     lineClass := "gridline" |}.

Definition drawBackground : DrawFunctions.background :=
  {| DrawFunctions.bgTemplines := bgTemplines;
     DrawFunctions.bgPressurelines := pressurelines;
     DrawFunctions.bgDryadiabats := dryadiabats;
     DrawFunctions.bgRightEdge := rightEdge |}.

(** [makeWindbarbs]: the glyph for speed [d], of size [DEFAULT_BARB_SIZE]. *)
Definition thisbarb (d : number) : option glyph :=
  let flags := Math_floor (d / 50) in
  let pennants := Math_floor ((d - flags * 50) / 10) in
  let halfpennants := Math_floor ((d - flags * 50 - pennants * 10) / 5) in
  let px := DEFAULT_BARB_SIZE in
  let stem := Line 0 0 0 DEFAULT_BARB_SIZE in
  match forLoop flags
          (fun '(px, g) =>
             (px - 7, (g ++ [Polyline [(0, px); (-10, px); (0, px - 4)] "flag"])%list))
          (px, [stem]) with
  | None => None
  | Some s1 =>
      match forLoop pennants
              (fun '(px, g) => (px - 3, (g ++ [Line 0 (-10) px (px + 4)])%list)) s1 with
      | None => None
      | Some s2 =>
          match forLoop halfpennants
                  (fun '(px, g) => (px - 3, (g ++ [Line 0 (-5) px (px + 2)])%list)) s2 with
          | None => None
          | Some s3 =>
              Some {| glyphId := concatNumber "barb" d; shapes := snd s3 |}
          end
      end
  end.

Definition makeWindbarbs : option (list glyph) :=
  forEach thisbarb (D3.range 5 105 5).

(** [drawLines]: the wind barbs. *)
Definition validWind (d : SkewTMeasurement) : bool :=
  isNumberAnd (wdir d) (fun v => 0 <=? v)
  && isNumberAnd (wspd d) (fun v => 0 <=? v)
  && (topp <=? press d).

Definition barbs : list SkewTMeasurement := filter validWind skewtline.

Definition barbUse (d : SkewTMeasurement) : useElem :=
  {| href :=
       match wspd d with
       | None => Some ""
       | Some v =>
           concatNumber "#barb" (Math_round (convertWindSpeed v "kt" / 5) * 5)
       end;
     transform :=
       match wdir d with
       | None => NoTransform
       | Some v => TranslateRotate w (y (press d)) (v + 180)
       end |}.

Definition drawBarbs : list useElem := map barbUse barbs.

(** [drawLines]: the temperature line and the dew point line. *)
Definition templine : list SkewTMeasurement -> path :=
  D3.line (fun d => x (toNumber (temp d)) + (y basep - y (press d)) / tan)
          (fun d => y (press d))
          (fun d => isNumberAnd (temp d) (fun t => -1000 <? t)).

Definition templines : list path := map templine skewtlines.

Definition dewline : list SkewTMeasurement -> path :=
  D3.line (fun d => x (toNumber (dwpt d)) + (y basep - y (press d)) / tan)
          (fun d => y (press d))
          (fun d => isNumberAnd (dwpt d) (fun t => -1000 <? t)).

Definition dewlines : list path := map dewline skewtlines.

(** The [mousemove] handler of the inline [setupTooltips]: it searches
    [skewtline] and returns before touching the focus groups when the
    index is out of range. *)
Definition nearest (y0 : number) : result (option SkewTMeasurement) :=
  bind (D3.bisectLeft press skewtline y0 1 (Z.of_nat (List.length skewtline) - 1))
       (fun i =>
          if (i <=? 0)%Z || (Z.of_nat (List.length skewtline) <=? i)%Z then Ok None
          else
            match index skewtline (i - 1) with
            | None => TypeError
            | Some d0 =>
                match index skewtline i with
                | None => TypeError
                | Some d1 =>
                    Ok (Some (if Math_abs (y0 - press d0) <? Math_abs (y0 - press d1)
                              then d0 else d1))
                end
            end).

(** The rest of the handler has the text of the utility's, over the
    component's frame and [speedUnit]. *)
Definition mousemove (py : number) (t : DrawFunctions.tooltips)
  : result DrawFunctions.tooltips :=
  bind (nearest (y_invert py))
       (fun o =>
          match o with
          | None => Ok t
          | Some d =>
              Ok (DrawFunctions.showSample x y basep tan w speedUnit d t)
          end).

Definition handle (e : DrawFunctions.pointerEvent) (t : DrawFunctions.tooltips)
  : result DrawFunctions.tooltips :=
  match e with
  | DrawFunctions.Mouseover => Ok (DrawFunctions.mouseover t)
  | DrawFunctions.Mouseout => Ok (DrawFunctions.mouseout t)
  | DrawFunctions.Mousemove py => mousemove py t
  end.

(** The focus groups after a sequence of pointer events. *)
Fixpoint run (es : list DrawFunctions.pointerEvent) (t : DrawFunctions.tooltips)
  : result DrawFunctions.tooltips :=
  match es with
  | [] => Ok t
  | e :: es' => bind (handle e t) (run es')
  end.

End Component.

End SkewT.

(** ** Vocabulary of the properties *)

(** [m] is a minimum of the list [l]: a member that is below every member. *)
Definition isMinimum (m : number) (l : list number) : Prop :=
  In m l /\ Forall (fun p => (m <=? p) = true) l.

(** The sounding of the README. *)
Definition soundingData : list SkewTMeasurement :=
  [ {| press := 1000; hght := Some 111; temp := Some 25; dwpt := Some 20;
       wdir := Some 160; wspd := Some 5 |};
    {| press := 850; hght := Some 1537; temp := Some 14; dwpt := Some 8;
       wdir := Some 220; wspd := Some 12 |};
    {| press := 700; hght := Some 3100; temp := Some 2; dwpt := Some (-5);
       wdir := Some 250; wspd := Some 25 |} ].

(** The glyph of a speed bucket in the words of the specification: the
    counts by integer division, a stem, then, walking inward from
    [px = barbsize], the flags (7 apart), the pennants and the
    half-pennants (3 apart). *)
Definition specFlags (d : Z) : Z := d / 50.

Definition specPennants (d : Z) : Z := (d - specFlags d * 50) / 10.

Definition specHalfPennants (d : Z) : Z :=
  (d - specFlags d * 50 - specPennants d * 10) / 5.

Fixpoint walk (n : nat) (dec : number) (draw : number -> shape) (px : number)
  : list shape * number :=
  match n with
  | O => ([], px)
  | S n' => let '(l, px') := walk n' dec draw (px - dec) in (draw px :: l, px')
  end.

Definition flagAt (px : number) : shape :=
  Polyline [(0, px); (-10, px); (0, px - 4)] "flag".

Definition pennantAt (px : number) : shape := Line 0 (-10) px (px + 4).

Definition halfPennantAt (px : number) : shape := Line 0 (-5) px (px + 2).

Definition specGlyph (barbsize : number) (d : Z) : glyph :=
  let '(fl, px1) := walk (Z.to_nat (specFlags d)) 7 flagAt barbsize in
  let '(pe, px2) := walk (Z.to_nat (specPennants d)) 3 pennantAt px1 in
  let '(ha, _) := walk (Z.to_nat (specHalfPennants d)) 3 halfPennantAt px2 in
  {| glyphId := Some ("barb" ++ decimal d);
     shapes := (Line 0 0 0 barbsize :: fl ++ pe ++ ha)%list |}.

(** The speed buckets 5, 10, ..., 100. *)
Definition buckets : list Z := map (fun i => 5 * Z.of_nat i)%Z (seq 1 20).

(** The ids of the glyphs: ["barb5"], ["barb10"], ..., ["barb100"]. *)
Definition bucketIds : list (option string) :=
  map (fun d => Some ("barb" ++ decimal d)) buckets.

(** A sample with wind only: direction [wd] degrees, speed [ws] m/s. *)
Definition windOnly (p wd ws : number) : SkewTMeasurement :=
  {| press := p; hght := None; temp := None; dwpt := None;
     wdir := Some wd; wspd := Some ws |}.

(** A level of a sounding with temperature and dew point, no wind. *)
Definition level (p t dw : number) : SkewTMeasurement :=
  {| press := p; hght := None; temp := Some t; dwpt := Some dw;
     wdir := None; wspd := None |}.

(** A profile at 1000, 850, 700 and 500 hPa, listed from the ground up. *)
Definition profile4 : list SkewTMeasurement :=
  [level 1000 25 20; level 850 14 8; level 700 2 (-5); level 500 (-15) (-30)].

(** No focus group has a label or a position: nothing was read out. *)
Definition noReadout (t : DrawFunctions.tooltips) : Prop :=
  DrawFunctions.text (DrawFunctions.tmpcfocus t) = None
  /\ DrawFunctions.text (DrawFunctions.dwpcfocus t) = None
  /\ DrawFunctions.text (DrawFunctions.hghtfocus t) = None
  /\ DrawFunctions.text (DrawFunctions.wspdfocus t) = None
  /\ DrawFunctions.position (DrawFunctions.tmpcfocus t) = None
  /\ DrawFunctions.position (DrawFunctions.dwpcfocus t) = None
  /\ DrawFunctions.position (DrawFunctions.hghtfocus t) = None
  /\ DrawFunctions.position (DrawFunctions.wspdfocus t) = None.

(** The frame of the component at its default size (a plot of 680 by 520
    pixels) for the sounding of the README, over the [Engine] logarithm;
    [tan55] is the binary64 tangent of the skew angle of 55 degrees. *)
Definition chartX : number -> number := SkewT.x 750.

Definition chartY : number -> number := SkewT.y Engine.log soundingData 620.

Definition tan55 : number := 1.4281480067421144.

(** The temperature a dry adiabat of potential temperature [theta] shows at
    pressure [p]. *)
Definition displayTemp (Math_pow : number -> number -> number)
           (theta p : number) : number :=
  (273.15 + theta) / Math_pow (1000 / p) 0.286 - 273.15.

(** Three levels, the middle one without a temperature. *)
Definition gapProfile : list SkewTMeasurement :=
  [ level 1000 25 20;
    {| press := 850; hght := None; temp := None; dwpt := Some 8;
       wdir := None; wspd := None |};
    level 700 2 (-5) ].

(** The points [a] and [b] are consecutive in a sub-path of [p]: the path
    joins them by a segment. *)
Definition joined (a b : number * number) (p : path) : Prop :=
  exists sub pre post, In sub p /\ sub = (pre ++ a :: b :: post)%list.

(** The point of a sample on the temperature line. *)
Definition tempPoint (x y : number -> number) (basep tan : number)
           (d : SkewTMeasurement) : number * number :=
  (DrawFunctions.templineX x y basep tan d, DrawFunctions.lineY y d).

Definition dewPoint (x y : number -> number) (basep tan : number)
           (d : SkewTMeasurement) : number * number :=
  (DrawFunctions.dewpointlineX x y basep tan d, DrawFunctions.lineY y d).

(** One sub-path through the points of [l], no sub-path for no point. *)
Definition onePath {A} (pt : A -> number * number) (l : list A) : path :=
  match l with
  | [] => []
  | _ => [map pt l]
  end.

(** Every focus group is hidden. *)
Definition allHidden (t : DrawFunctions.tooltips) : Prop :=
  DrawFunctions.display (DrawFunctions.tmpcfocus t) = false
  /\ DrawFunctions.display (DrawFunctions.dwpcfocus t) = false
  /\ DrawFunctions.display (DrawFunctions.hghtfocus t) = false
  /\ DrawFunctions.display (DrawFunctions.wspdfocus t) = false.

(** The elements [a] and [b] follow each other in [l]. *)
Definition consecutive {A} (a b : A) (l : list A) : Prop :=
  exists pre post, l = (pre ++ a :: b :: post)%list.

(** A profile listed by ascending pressure: every sample has a pressure
    that is at most the pressure of each sample listed after it. *)
Fixpoint ascending (l : list SkewTMeasurement) : Prop :=
  match l with
  | [] => True
  | d :: l' => Forall (fun e => (press d <=? press e) = true) l' /\ ascending l'
  end.

(** [k] is one of the speeds 5, 10, ..., 100 a glyph is defined for. *)
Definition isBucket (k : number) : bool :=
  existsb (fun d => ofZ d =? k) buckets.

(** The marks of a glyph, told apart as a reader of the barb does: a
    flag is a polyline of class [flag], a pennant a line that reaches 10 to
    the left, a half-pennant one that reaches 5, the stem one that stays on
    the axis. *)
Definition isFlag (s : shape) : bool :=
  match s with
  | Polyline _ c => String.eqb c "flag"
  | Line _ _ _ _ => false
  end.

Definition reaches (k : number) (s : shape) : bool :=
  match s with
  | Line a b _ _ => (a =? 0) && (b =? k)
  | Polyline _ _ => false
  end.

Definition count (p : shape -> bool) (g : glyph) : Z :=
  Z.of_nat (List.length (filter p (shapes g))).

(** The speed a glyph shows: 50 for a flag, 10 for a pennant, 5 for a
    half-pennant. *)
Definition isPennant : shape -> bool := reaches (-10).

Definition isHalfPennant : shape -> bool := reaches (-5).

Definition isStem : shape -> bool := reaches 0.

Definition speedShown (g : glyph) : Z :=
  (50 * count isFlag g + 10 * count isPennant g + 5 * count isHalfPennant g)%Z.

(** * Properties *)

(** ** The order of binary64 values *)

Section Binary64Order.

Lemma SFcompare_refl (a : spec_float) :
  a <> S754_nan -> SFcompare a a = Some Eq.
Proof.
  destruct a as [s|s| |s m e]; simpl; intros H; try congruence.
  - destruct s; reflexivity.
  - rewrite Z.compare_refl.
    change (Pos.compare_cont Eq m m) with (Pos.compare m m).
    rewrite Pos.compare_refl. destruct s; reflexivity.
Qed.

Lemma SFcompare_antisym (a b : spec_float) :
  SFcompare b a = option_map CompOpp (SFcompare a b).
Proof.
  destruct a as [sa|sa| |sa ma ea], b as [sb|sb| |sb mb eb]; simpl;
    try reflexivity;
    repeat match goal with s : bool |- _ => destruct s end; simpl;
    try reflexivity.
  all: rewrite (Z.compare_antisym eb ea).
  all: destruct (eb ?= ea)%Z; simpl; try reflexivity.
  all: rewrite (Pos.compare_cont_antisym ma mb Eq); simpl.
  all: destruct (Pos.compare_cont Eq ma mb); reflexivity.
Qed.

Lemma SFcompare_Eq_l (a b c : spec_float) :
  SFcompare a b = Some Eq -> SFcompare a c = SFcompare b c.
Proof.
  destruct a as [sa|sa| |sa ma ea], b as [sb|sb| |sb mb eb]; simpl;
    try discriminate; try reflexivity;
    repeat match goal with s : bool |- _ => destruct s end; simpl;
    try discriminate; try reflexivity.
  all: intros H; injection H as H.
  all: destruct (Z.compare_spec ea eb); try discriminate; subst.
  all: change (Pos.compare_cont Eq ma mb) with (Pos.compare ma mb) in H.
  all: try (apply (f_equal CompOpp) in H; rewrite CompOpp_involutive in H;
            simpl in H).
  all: apply Pos.compare_eq in H; subst; reflexivity.
Qed.

Lemma SFleb_trans (a b c : spec_float) :
  SFleb a b = true -> SFleb b c = true -> SFleb a c = true.
Proof.
  unfold SFleb.
  destruct a as [sa|sa| |sa ma ea], b as [sb|sb| |sb mb eb],
           c as [sc|sc| |sc mc ec];
    simpl; try discriminate; try reflexivity;
    repeat match goal with s : bool |- _ => destruct s end; simpl;
    try discriminate; try reflexivity.
  all: change (Pos.compare_cont Eq) with Pos.compare.
  all: destruct (Z.compare_spec ea eb), (Z.compare_spec eb ec),
         (Z.compare_spec ea ec);
    simpl; try discriminate; try reflexivity; try lia; subst.
  all: destruct (Pos.compare_spec ma mb), (Pos.compare_spec mb mc),
         (Pos.compare_spec ma mc);
    simpl; try discriminate; try reflexivity; try lia.
Qed.

(** A finite non-zero value has one representation. *)
Lemma SFcompare_Eq_finite (a : spec_float) s m e :
  SFcompare a (S754_finite s m e) = Some Eq -> a = S754_finite s m e.
Proof.
  destruct a as [sa|sa| |sa ma ea]; simpl;
    try discriminate;
    repeat match goal with s : bool |- _ => destruct s end; simpl;
    try discriminate.
  all: intros H; injection H as H.
  all: destruct (Z.compare_spec ea e); try discriminate; subst.
  all: change (Pos.compare_cont Eq ma m) with (Pos.compare ma m) in H.
  all: try (apply (f_equal CompOpp) in H; rewrite CompOpp_involutive in H;
            simpl in H).
  all: apply Pos.compare_eq in H; subst; reflexivity.
Qed.

Lemma is_nan_false (v : number) :
  is_nan v = false <-> Prim2SF v <> S754_nan.
Proof.
  unfold is_nan. rewrite FloatAxioms.eqb_spec. unfold SFeqb. split.
  - intros H E. rewrite E in H. discriminate.
  - intros H. rewrite SFcompare_refl by assumption. reflexivity.
Qed.

Lemma leb_refl (v : number) : is_nan v = false -> (v <=? v) = true.
Proof.
  intros H. apply is_nan_false in H.
  rewrite FloatAxioms.leb_spec. unfold SFleb. now rewrite SFcompare_refl.
Qed.

Lemma ltb_leb (a b : number) : (a <? b) = true -> (a <=? b) = true.
Proof.
  rewrite FloatAxioms.ltb_spec, FloatAxioms.leb_spec. unfold SFltb, SFleb.
  destruct (SFcompare (Prim2SF a) (Prim2SF b)) as [[]|]; congruence.
Qed.

Lemma nltb_leb (a b : number) :
  is_nan a = false -> is_nan b = false ->
  (a <? b) = false -> (b <=? a) = true.
Proof.
  intros Ha Hb. apply is_nan_false in Ha. apply is_nan_false in Hb.
  rewrite FloatAxioms.ltb_spec, FloatAxioms.leb_spec. unfold SFltb, SFleb.
  rewrite (SFcompare_antisym (Prim2SF a) (Prim2SF b)).
  destruct (Prim2SF a) as [sa|sa| |sa ma ea], (Prim2SF b) as [sb|sb| |sb mb eb];
    try congruence;
    destruct (SFcompare _ _) as [[]|] eqn:E; simpl; try congruence;
    simpl in E; discriminate.
Qed.

Lemma leb_trans (a b c : number) :
  (a <=? b) = true -> (b <=? c) = true -> (a <=? c) = true.
Proof. rewrite !FloatAxioms.leb_spec. apply SFleb_trans. Qed.

Lemma leb_not_nan (a b : number) :
  (a <=? b) = true -> is_nan a = false /\ is_nan b = false.
Proof.
  rewrite FloatAxioms.leb_spec. unfold SFleb. intros H.
  split; apply is_nan_false; intros E; rewrite E in H;
    destruct (Prim2SF _); discriminate.
Qed.

Lemma leb_antisym (a b : number) :
  (a <=? b) = true -> (b <=? a) = true -> (a =? b) = true.
Proof.
  rewrite !FloatAxioms.leb_spec, FloatAxioms.eqb_spec. unfold SFleb, SFeqb.
  rewrite (SFcompare_antisym (Prim2SF a) (Prim2SF b)).
  destruct (SFcompare (Prim2SF a) (Prim2SF b)) as [[]|]; simpl; congruence.
Qed.

(** IEEE equality with a finite non-zero value is equality. *)
Lemma eqb_finite_eq (a b : number) s m e :
  Prim2SF b = S754_finite s m e -> (a =? b) = true -> a = b.
Proof.
  intros Hb. rewrite FloatAxioms.eqb_spec. unfold SFeqb. rewrite Hb.
  destruct (SFcompare _ _) as [[]|] eqn:E; try discriminate. intros _.
  apply SFcompare_Eq_finite in E. apply Prim2SF_inj. congruence.
Qed.

Lemma eqb_sym (a b : number) : (a =? b) = (b =? a).
Proof.
  rewrite !FloatAxioms.eqb_spec. unfold SFeqb.
  rewrite (SFcompare_antisym (Prim2SF a) (Prim2SF b)).
  destruct (SFcompare (Prim2SF a) (Prim2SF b)) as [[]|]; reflexivity.
Qed.

Lemma eqb_ltb_compat (a b c : number) :
  (a =? b) = true -> (c <? a) = (c <? b).
Proof.
  rewrite FloatAxioms.eqb_spec, !FloatAxioms.ltb_spec. unfold SFeqb, SFltb.
  destruct (SFcompare (Prim2SF a) (Prim2SF b)) as [[]|] eqn:E;
    try discriminate. intros _.
  rewrite (SFcompare_antisym (Prim2SF a) (Prim2SF c)).
  rewrite (SFcompare_antisym (Prim2SF b) (Prim2SF c)).
  now rewrite (SFcompare_Eq_l _ _ _ E).
Qed.

Lemma eqb_eqb_compat (a b c : number) :
  (a =? b) = true -> (c =? a) = (c =? b).
Proof.
  rewrite !FloatAxioms.eqb_spec. unfold SFeqb.
  destruct (SFcompare (Prim2SF a) (Prim2SF b)) as [[]|] eqn:E;
    try discriminate. intros _.
  rewrite (SFcompare_antisym (Prim2SF a) (Prim2SF c)).
  rewrite (SFcompare_antisym (Prim2SF b) (Prim2SF c)).
  now rewrite (SFcompare_Eq_l _ _ _ E).
Qed.

Lemma finite_cases (a : number) :
  is_finite a = true ->
  (exists s, Prim2SF a = S754_zero s)
  \/ (exists s m e, Prim2SF a = S754_finite s m e).
Proof.
  unfold is_finite, is_nan, is_infinity.
  rewrite !FloatAxioms.eqb_spec, abs_spec.
  replace (Prim2SF infinity) with (S754_infinity false)
    by (vm_compute; reflexivity).
  destruct (Prim2SF a) as [s|s| |s m e]; simpl; intros H.
  - left. now exists s.
  - destruct s; vm_compute in H; discriminate.
  - discriminate.
  - right. now exists s, m, e.
Qed.

(** A finite value minus itself is [+0]. *)
Lemma sub_self (a : number) : is_finite a = true -> a - a = 0.
Proof.
  intros H. apply Prim2SF_inj. rewrite sub_spec.
  replace (Prim2SF 0) with (S754_zero false) by (vm_compute; reflexivity).
  destruct (finite_cases a H) as [[s E]|(s & m & e & E)]; rewrite E.
  - destruct s; reflexivity.
  - unfold SF64sub, SFsub. rewrite Z.sub_diag. reflexivity.
Qed.

(** Zero divided by a non-zero number is a zero. *)
Lemma zero_div (b : number) :
  is_nan b = false -> (b =? 0) = false ->
  exists s, Prim2SF (0 / b) = S754_zero s.
Proof.
  intros Hn Hz. apply is_nan_false in Hn.
  rewrite FloatAxioms.eqb_spec in Hz. rewrite div_spec.
  replace (Prim2SF 0) with (S754_zero false) in * by (vm_compute; reflexivity).
  destruct (Prim2SF b) as [s|s| |s m e]; simpl in *; try congruence; eauto.
  destruct s; vm_compute in Hz; discriminate.
Qed.

(** Adding a zero does not change what remains after taking a half off. *)
Lemma add_zero_sub_half (a z : number) (s : bool) :
  Prim2SF z = S754_zero s -> a + z - 0.5 = a - 0.5.
Proof.
  intros Hz.
  assert (E : Prim2SF (a + z) = Prim2SF a
              \/ exists sa sb, Prim2SF a = S754_zero sa
                               /\ Prim2SF (a + z) = S754_zero sb).
  { rewrite add_spec, Hz. unfold SF64add, SFadd.
    destruct (Prim2SF a) as [sa|sa| |sa ma ea]; auto.
    right. exists sa. destruct sa, s; eauto. }
  destruct E as [E|(sa & sb & Ea & Eb)].
  - apply Prim2SF_inj in E. now rewrite E.
  - assert (Ha : a = SF2Prim (S754_zero sa))
      by (rewrite <- Ea; symmetry; apply SF2Prim_Prim2SF).
    assert (Hb : a + z = SF2Prim (S754_zero sb))
      by (rewrite <- Eb; symmetry; apply SF2Prim_Prim2SF).
    rewrite Hb. rewrite Ha.
    destruct sa, sb; reflexivity.
Qed.

End Binary64Order.

(** ** Unit conversion *)

Lemma convertWindSpeed_default (v : number) (unit : string) :
  unit <> "kt" -> unit <> "kmh" -> Conversions.convertWindSpeed v unit = v.
Proof.
  intros Hkt Hkmh.
  destruct unit as [|a1 [|a2 [|a3 [|a4 u]]]]; try reflexivity.
  - destruct a1 as [[] [] [] [] [] [] [] []]; reflexivity.
  - destruct a1 as [[] [] [] [] [] [] [] []]; try reflexivity.
    destruct a2 as [[] [] [] [] [] [] [] []]; try reflexivity.
    congruence.
  - destruct a1 as [[] [] [] [] [] [] [] []]; try reflexivity.
    destruct a2 as [[] [] [] [] [] [] [] []]; try reflexivity.
    destruct a3 as [[] [] [] [] [] [] [] []]; try reflexivity.
    congruence.
  - destruct a1 as [[] [] [] [] [] [] [] []]; try reflexivity.
    destruct a2 as [[] [] [] [] [] [] [] []]; try reflexivity.
    destruct a3 as [[] [] [] [] [] [] [] []]; reflexivity.
Qed.

Lemma component_convertWindSpeed_same (v : number) (unit : string) :
  SkewT.convertWindSpeed v unit = Conversions.convertWindSpeed v unit.
Proof. reflexivity. Qed.

(** C9. [convertWindSpeed(v, unit)] is [v * 1.943844492] for ["kt"],
    [v * 3.6] for ["kmh"] and [v] itself for every other unit token, in the
    utility and in the component's own copy; 10 m/s is 19.43844492 kt (the
    nearest binary64 value), exactly 36 km/h, and 10 for ["ms"] and
    ["unknown"]. *)
Theorem convertWindSpeed_contract :
  (forall v, Conversions.convertWindSpeed v "kt" = v * 1.943844492)
  /\ (forall v, Conversions.convertWindSpeed v "kmh" = v * 3.6)
  /\ (forall v unit, unit <> "kt" -> unit <> "kmh" ->
                     Conversions.convertWindSpeed v unit = v)
  /\ (forall v unit, SkewT.convertWindSpeed v unit
                     = Conversions.convertWindSpeed v unit)
  /\ Conversions.convertWindSpeed 10 "kt" = 19.43844492
  /\ Conversions.convertWindSpeed 10 "kmh" = 36
  /\ Conversions.convertWindSpeed 10 "ms" = 10
  /\ Conversions.convertWindSpeed 10 "unknown" = 10.
Proof.
  repeat split; try reflexivity.
  intros v unit. apply convertWindSpeed_default.
Qed.

Lemma convertWindSpeed_contract_witness :
  Conversions.convertWindSpeed 2.5 "mph" = 2.5.
Proof.
  apply (proj1 (proj2 (proj2 convertWindSpeed_contract))); discriminate.
Defined.

(** ** Top pressure *)

Lemma fold_min_spec (l : list SkewTMeasurement) (m0 : number) :
  is_nan m0 = false ->
  Forall (fun d => is_nan (press d) = false) l ->
  let m := fold_left (fun min current =>
                        if press current <? min then press current else min)
                     l m0 in
  is_nan m = false
  /\ (m = m0 \/ In m (map press l))
  /\ (m <=? m0) = true
  /\ Forall (fun d => (m <=? press d) = true) l.
Proof.
  revert m0. induction l as [|d l IH]; intros m0 Hm0 Hl; simpl.
  - repeat split; auto using leb_refl.
  - inversion Hl as [|? ? Hd Hl']; subst.
    destruct (press d <? m0) eqn:E.
    + destruct (IH (press d) Hd Hl') as (Hn & Hin & Hle & Hall).
      repeat split; auto.
      * destruct Hin as [->|Hin]; auto.
      * eapply leb_trans; [exact Hle | now apply ltb_leb].
    + destruct (IH m0 Hm0 Hl') as (Hn & Hin & Hle & Hall).
      repeat split; auto.
      * destruct Hin as [->|Hin]; auto.
      * constructor; auto.
        eapply leb_trans; [exact Hle | now apply nltb_leb].
Qed.

Lemma getSmallestPressureValue_minimum (data : list SkewTMeasurement) :
  data <> [] ->
  Forall (fun d => is_nan (press d) = false) data ->
  isMinimum (DrawFunctions.getSmallestPressureValue (Some data))
            (map press data).
Proof.
  intros Hne Hall. destruct data as [|d0 l]; [congruence|].
  assert (H0 : is_nan (press d0) = false) by now inversion Hall.
  destruct (fold_min_spec (d0 :: l) (press d0) H0 Hall) as (_ & Hin & _ & Hle).
  unfold DrawFunctions.getSmallestPressureValue.
  split.
  - destruct Hin as [->|Hin]; [now left | exact Hin].
  - apply Forall_map. exact Hle.
Qed.

(** C7. For a non-empty profile whose pressures are numbers (none is
    [NaN]), the component's top pressure is [Math.max(50, m - 10)] for a
    minimum [m] of the [press] fields; when that minimum is 700 hPa the
    top pressure is 690 hPa. *)
Theorem top_pressure_from_minimum (data : list SkewTMeasurement) :
  data <> [] ->
  Forall (fun d => is_nan (press d) = false) data ->
  (exists m, isMinimum m (map press data)
             /\ SkewT.topp data = Math_max 50 (m - 10))
  /\ (isMinimum 700 (map press data) -> SkewT.topp data = 690).
Proof.
  intros Hne Hall.
  pose proof (getSmallestPressureValue_minimum data Hne Hall) as Hmin.
  split.
  - eexists. split; [exact Hmin | reflexivity].
  - intros [Hin700 Hle700]. destruct Hmin as [Hin Hle].
    rewrite Forall_forall in Hle, Hle700.
    assert (E : DrawFunctions.getSmallestPressureValue (Some data) = 700).
    { eapply eqb_finite_eq.
      - vm_compute. reflexivity.
      - apply leb_antisym; auto. }
    unfold SkewT.topp. rewrite E. reflexivity.
Qed.

Lemma top_pressure_from_minimum_witness : SkewT.topp soundingData = 690.
Proof.
  apply (proj2 (top_pressure_from_minimum soundingData
                  ltac:(discriminate)
                  ltac:(repeat constructor))).
  split; [simpl; auto | repeat constructor].
Defined.

(** ** Wind-barb glyphs *)

Lemma speeds_are_buckets : WindBarbs.speeds = map ofZ buckets.
Proof. vm_compute. reflexivity. Qed.

Lemma counts_of_buckets :
  Forall (fun d => WindBarbs.flagsOf (ofZ d) = ofZ (specFlags d)
                   /\ WindBarbs.pennantsOf (ofZ d) = ofZ (specPennants d)
                   /\ WindBarbs.halfpennantsOf (ofZ d) = ofZ (specHalfPennants d))
         buckets.
Proof. repeat constructor. Qed.

Lemma makeWindbarbs_spec (barbsize : number) :
  WindBarbs.makeWindbarbs barbsize = Some (map (specGlyph barbsize) buckets).
Proof. vm_compute. reflexivity. Qed.

Lemma glyph_ids (barbsize : number) :
  map glyphId (map (specGlyph barbsize) buckets) = bucketIds.
Proof. vm_compute. reflexivity. Qed.

Lemma bucketIds_NoDup : NoDup bucketIds.
Proof.
  vm_compute.
  repeat (constructor; [simpl; intuition discriminate|]).
  constructor.
Qed.

(** C8. For every barb size, [makeWindbarbs] builds one glyph for each
    bucket 5, 10, ..., 100 and no other, under pairwise distinct ids; the
    numbers of flags, pennants and half-pennants the code computes are
    [d / 50], [(d - flags * 50) / 10] and
    [(d - flags * 50 - pennants * 10) / 5] in integer division; each glyph
    starts with the stem from 0 to [barbsize], followed by the flags drawn
    from [px = barbsize] with [px] going down by 7 after each, then the
    pennants and the half-pennants with [px] going down by 3 after each.
    Bucket 65 has one flag, one pennant and one half-pennant.  The
    component builds the same glyphs for its barb size of 25. *)
Theorem windbarb_glyph_construction (barbsize : number) :
  WindBarbs.makeWindbarbs barbsize = Some (map (specGlyph barbsize) buckets)
  /\ map glyphId (map (specGlyph barbsize) buckets) = bucketIds
  /\ NoDup bucketIds
  /\ Forall (fun d => WindBarbs.flagsOf (ofZ d) = ofZ (specFlags d)
                      /\ WindBarbs.pennantsOf (ofZ d) = ofZ (specPennants d)
                      /\ WindBarbs.halfpennantsOf (ofZ d)
                         = ofZ (specHalfPennants d))
            buckets
  /\ Forall (fun g => hd_error (shapes g) = Some (Line 0 0 0 barbsize))
            (map (specGlyph barbsize) buckets)
  /\ (specFlags 65 = 1 /\ specPennants 65 = 1 /\ specHalfPennants 65 = 1)%Z
  /\ shapes (specGlyph barbsize 65)
     = [Line 0 0 0 barbsize; flagAt barbsize; pennantAt (barbsize - 7);
        halfPennantAt (barbsize - 7 - 3)]
  /\ SkewT.makeWindbarbs = WindBarbs.makeWindbarbs Constants.DEFAULT_BARB_SIZE.
Proof.
  split; [apply makeWindbarbs_spec|].
  split; [apply glyph_ids|].
  split; [apply bucketIds_NoDup|].
  split; [apply counts_of_buckets|].
  split; [repeat constructor|].
  repeat split.
Qed.

(** ** Glyph lookup *)

Lemma decimal_inj (a b : Z) : decimal a = decimal b -> a = b.
Proof.
  unfold decimal. intros H.
  apply DecimalZ.to_int_inj.
  assert (N : forall z, Z.to_int z <> Decimal.Pos Decimal.Nil
                        /\ Z.to_int z <> Decimal.Neg Decimal.Nil).
  { intros [|q|q]; simpl; split; try discriminate;
      intros E; injection E as E; now apply DecimalPos.Unsigned.to_uint_nonnil in E. }
  apply (f_equal NilZero.int_of_string) in H.
  rewrite !NilZero.isi in H by apply N.
  congruence.
Qed.

Lemma buckets_not_special :
  Forall (fun d => decimal d <> "NaN" /\ decimal d <> "Infinity"
                   /\ decimal d <> "-Infinity"
                   /\ (ofZ d =? 0) = false /\ (100 <? ofZ d) = false)
         buckets.
Proof. repeat constructor; discriminate. Qed.

(** A [<use>] that refers to ["#barb" + k] shows a glyph only when [k] is
    one of the buckets. *)
Lemma resolve_bucket (barbsize k : number) (u : useElem) (g : glyph) :
  href u = concatNumber "#barb" k ->
  resolve (map (specGlyph barbsize) buckets) u = Some g ->
  exists d, In d buckets /\ (ofZ d =? k) = true.
Proof.
  intros Hu Hr. unfold resolve in Hr. rewrite Hu in Hr.
  unfold concatNumber in Hr.
  destruct (numberToString k) as [s|] eqn:Hs;
    cbv beta iota delta [option_map] in Hr; [|discriminate].
  apply find_some in Hr. destruct Hr as [Hin Heq].
  apply in_map_iff in Hin. destruct Hin as (d & <- & Hd).
  exists d. split; [exact Hd|].
  assert (Hg : glyphId (specGlyph barbsize d) = Some ("barb" ++ decimal d)).
  { unfold specGlyph. repeat destruct (walk _ _ _ _). reflexivity. }
  rewrite Hg in Heq. apply String.eqb_eq in Heq. simpl in Heq.
  injection Heq as Heq. subst s.
  pose proof buckets_not_special as B. rewrite Forall_forall in B.
  destruct (B d Hd) as (B1 & B2 & B3 & _).
  unfold numberToString in Hs.
  destruct (is_nan k); [congruence|].
  destruct (k =? infinity); [congruence|].
  destruct (k =? neg_infinity); [congruence|].
  destruct (integerValue k) as [z|] eqn:Hz; [|discriminate].
  injection Hs as Hs. apply decimal_inj in Hs. subst z.
  unfold integerValue in Hz.
  destruct (floorZ k) as [z|]; [|discriminate].
  destruct (ofZ z =? k) eqn:E; simpl in Hz; [|discriminate].
  destruct (Z.abs z <=? 9007199254740992)%Z; [|discriminate].
  injection Hz as ->. exact E.
Qed.

Lemma resolve_out_of_range (barbsize k : number) (u : useElem) :
  href u = concatNumber "#barb" k ->
  (k =? 0) = true \/ (100 <? k) = true ->
  resolve (map (specGlyph barbsize) buckets) u = None.
Proof.
  intros Hu Hk.
  destruct (resolve _ u) as [g|] eqn:Hr; [|reflexivity].
  destruct (resolve_bucket _ _ _ _ Hu Hr) as (d & Hd & E).
  pose proof buckets_not_special as B. rewrite Forall_forall in B.
  destruct (B d Hd) as (_ & _ & _ & B0 & B100).
  destruct Hk as [Hk|Hk].
  - rewrite (eqb_eqb_compat _ _ (ofZ d) Hk) in E. congruence.
  - rewrite (eqb_ltb_compat _ _ 100 E) in B100. congruence.
Qed.

Lemma component_href (Math_log : number -> number)
      (data : list SkewTMeasurement) (width height w : number)
      (y : number -> number) (d : SkewTMeasurement) :
  SkewT.validWind data d = true ->
  href (SkewT.barbUse Math_log data width height d)
  = href (WindBarbs.barbUse w y d).
Proof.
  unfold SkewT.validWind, SkewT.barbUse, WindBarbs.barbUse, WindBarbs.kts.
  destruct (wspd d); simpl.
  - reflexivity.
  - rewrite andb_false_r. discriminate.
Qed.

(** C10. The [<use>] of a sample that passes the wind filter refers to
    ["#barb" + kts], [kts = Math.round(wspd * 1.943844492 / 5) * 5], in the
    utility and in the component alike, while the glyphs built are those of
    the buckets 5 to 100.  Whenever [kts] is 0 or above 100 the reference
    names no glyph and nothing is shown: so it is for 1.28 m/s (["#barb0"])
    and 52.8 m/s (["#barb105"]), samples that pass the filter, whereas
    1.29 m/s and 52.7 m/s find ["barb5"] and ["barb100"]. *)
Theorem barb_reference_may_dangle
        (barbsize topp w : number) (y : number -> number) (defs : list glyph) :
  WindBarbs.makeWindbarbs barbsize = Some defs ->
  map glyphId defs = bucketIds
  /\ (forall d, WindBarbs.validWind topp d = true ->
                href (WindBarbs.barbUse w y d)
                = concatNumber "#barb"
                    (Math_round (toNumber (wspd d) * 1.943844492 / 5) * 5))
  /\ (forall Math_log data width height d,
         SkewT.validWind data d = true ->
         href (SkewT.barbUse Math_log data width height d)
         = href (WindBarbs.barbUse w y d))
  /\ (forall d, WindBarbs.validWind topp d = true ->
                (WindBarbs.kts d =? 0) = true \/ (100 <? WindBarbs.kts d) = true ->
                resolve defs (WindBarbs.barbUse w y d) = None)
  /\ (let d := windOnly 850 220 1.28 in
      WindBarbs.validWind 690 d = true
      /\ href (WindBarbs.barbUse w y d) = Some "#barb0"
      /\ resolve defs (WindBarbs.barbUse w y d) = None)
  /\ (let d := windOnly 850 220 1.29 in
      href (WindBarbs.barbUse w y d) = Some "#barb5"
      /\ option_map glyphId (resolve defs (WindBarbs.barbUse w y d))
         = Some (Some "barb5"))
  /\ (let d := windOnly 850 220 52.7 in
      href (WindBarbs.barbUse w y d) = Some "#barb100"
      /\ option_map glyphId (resolve defs (WindBarbs.barbUse w y d))
         = Some (Some "barb100"))
  /\ (let d := windOnly 850 220 52.8 in
      WindBarbs.validWind 690 d = true
      /\ href (WindBarbs.barbUse w y d) = Some "#barb105"
      /\ resolve defs (WindBarbs.barbUse w y d) = None).
Proof.
  intros Hdefs. rewrite makeWindbarbs_spec in Hdefs. injection Hdefs as <-.
  split; [apply glyph_ids|].
  split; [reflexivity|].
  split; [intros; now apply component_href|].
  split; [intros d _ Hk; now apply (resolve_out_of_range barbsize (WindBarbs.kts d))|].
  repeat split; vm_compute; reflexivity.
Qed.

Lemma barb_reference_may_dangle_witness :
  resolve (map (specGlyph 25) buckets)
          (WindBarbs.barbUse (SkewT.w 750) (SkewT.y Engine.log soundingData 620)
                             (windOnly 850 220 1))
  = None.
Proof.
  apply (proj1 (proj2 (proj2 (proj2
           (barb_reference_may_dangle 25 690 (SkewT.w 750)
              (SkewT.y Engine.log soundingData 620) _
              (makeWindbarbs_spec 25)))))).
  - reflexivity.
  - left. reflexivity.
Defined.

(** ** The probe *)

Section Probe.

Context {A : Type} (f : A -> number).

Lemma bisect_loop_bounds (a : list A) (x : number) (lo hi i : Z) :
  (lo <= hi)%Z -> D3.bisect_loop f a x lo hi = Ok i -> (lo <= i <= hi)%Z.
Proof.
  funelim (D3.bisect_loop f a x lo hi); intros Hle Hr.
  - injection Hr as <-. lia.
  - assert (lo <= (lo + hi) / 2 < hi)%Z
      by (split; [apply Z.div_le_lower_bound | apply Z.div_lt_upper_bound]; lia).
    destruct (f d <? x).
    + apply H in Hr; lia.
    + apply H0 in Hr; lia.
  - discriminate.
Qed.

Lemma bisect_loop_total (a : list A) (x : number) (lo hi : Z) :
  (0 <= lo)%Z -> (hi <= Z.of_nat (List.length a))%Z ->
  exists i, D3.bisect_loop f a x lo hi = Ok i.
Proof.
  funelim (D3.bisect_loop f a x lo hi); intros Hlo Hhi.
  - eauto.
  - assert (lo <= (lo + hi) / 2 < hi)%Z
      by (split; [apply Z.div_le_lower_bound | apply Z.div_lt_upper_bound]; lia).
    destruct (f d <? x).
    + apply H; lia.
    + apply H0; lia.
  - exfalso.
    assert (lo <= (lo + hi) / 2 < hi)%Z
      by (split; [apply Z.div_le_lower_bound | apply Z.div_lt_upper_bound]; lia).
    unfold index in Heq.
    destruct ((lo + hi) / 2 <? 0)%Z eqn:E; [lia|].
    apply nth_error_None in Heq. lia.
Qed.

Lemma bisectLeft_bounds (a : list A) (x : number) (lo hi i : Z) :
  (lo <= hi)%Z -> D3.bisectLeft f a x lo hi = Ok i -> (lo <= i <= hi)%Z.
Proof.
  unfold D3.bisectLeft. intros Hle.
  destruct (lo <? hi)%Z; [destruct (is_nan x)|].
  - intros [= <-]. lia.
  - now apply bisect_loop_bounds.
  - intros [= <-]. lia.
Qed.

Lemma bisectLeft_total (a : list A) (x : number) (lo hi : Z) :
  (0 <= lo)%Z -> (hi <= Z.of_nat (List.length a))%Z ->
  exists i, D3.bisectLeft f a x lo hi = Ok i.
Proof.
  unfold D3.bisectLeft. intros Hlo Hhi.
  destruct (lo <? hi)%Z; [destruct (is_nan x)|]; eauto.
  now apply bisect_loop_total.
Qed.

End Probe.

Lemma utility_nearest_short (data : list SkewTMeasurement) (y0 : number) :
  (List.length data < 2)%nat -> DrawFunctions.nearest data y0 = TypeError.
Proof.
  intros H. destruct data as [|d0 [|d1 l]]; simpl in H; try lia; reflexivity.
Qed.

(** With two samples or more the handler picks between the neighbours
    [data[i - 1]] and [data[i]] of an index [1 <= i <= length - 1], the one
    whose pressure is strictly nearer to [y0], [data[i]] on a tie. *)
Lemma utility_nearest_selects (data : list SkewTMeasurement) (y0 : number) :
  (2 <= List.length data)%nat ->
  exists i d0 d1,
    (1 <= i <= Z.of_nat (List.length data) - 1)%Z
    /\ index data (i - 1) = Some d0
    /\ index data i = Some d1
    /\ DrawFunctions.nearest data y0
       = Ok (if Math_abs (y0 - press d0) <? Math_abs (y0 - press d1)
             then d0 else d1).
Proof.
  intros Hlen. unfold DrawFunctions.nearest.
  destruct (bisectLeft_total press data y0 1 (Z.of_nat (List.length data) - 1))
    as [i Hi]; try lia.
  pose proof (bisectLeft_bounds press data y0 1
                (Z.of_nat (List.length data) - 1) i ltac:(lia) Hi) as Hb.
  rewrite Hi. simpl.
  unfold index.
  destruct (i - 1 <? 0)%Z eqn:E1; [lia|].
  destruct (i <? 0)%Z eqn:E2; [lia|].
  destruct (nth_error data (Z.to_nat (i - 1))) as [d0|] eqn:N0;
    [|apply nth_error_None in N0; lia].
  destruct (nth_error data (Z.to_nat i)) as [d1|] eqn:N1;
    [|apply nth_error_None in N1; lia].
  exists i, d0, d1. rewrite E1, E2, N0, N1. auto.
Qed.

Section ComponentProbe.

Variables (Math_log Math_exp Math_tan : number -> number).
Variables (data : list SkewTMeasurement) (width height : number).
Variable (speedUnit : string).

Lemma component_nearest_short (y0 : number) :
  (List.length (SkewT.skewtline data) < 2)%nat ->
  SkewT.nearest data y0 = Ok None.
Proof.
  intros H. unfold SkewT.nearest.
  destruct (SkewT.skewtline data) as [|d0 [|d1 l]]; simpl in H; try lia;
    reflexivity.
Qed.

(** The component's handler never throws. *)
Lemma component_nearest_total (y0 : number) :
  exists o, SkewT.nearest data y0 = Ok o.
Proof.
  unfold SkewT.nearest. set (l := SkewT.skewtline data).
  destruct (Nat.le_gt_cases 2 (List.length l)) as [Hlen|Hlen].
  - destruct (bisectLeft_total press l y0 1 (Z.of_nat (List.length l) - 1))
      as [i Hi]; try lia.
    pose proof (bisectLeft_bounds press l y0 1
                  (Z.of_nat (List.length l) - 1) i ltac:(lia) Hi) as Hb.
    rewrite Hi. simpl.
    destruct ((i <=? 0)%Z || (Z.of_nat (List.length l) <=? i)%Z); eauto.
    unfold index.
    destruct (i - 1 <? 0)%Z eqn:E1; [lia|].
    destruct (i <? 0)%Z eqn:E2; [lia|].
    destruct (nth_error l (Z.to_nat (i - 1))) as [d0|] eqn:N0;
      [|apply nth_error_None in N0; lia].
    destruct (nth_error l (Z.to_nat i)) as [d1|] eqn:N1;
      [|apply nth_error_None in N1; lia].
    eauto.
  - destruct l as [|d0 [|d1 l']]; simpl in Hlen; try lia; simpl; eauto.
Qed.

Lemma component_mousemove_short (py : number) (t : DrawFunctions.tooltips) :
  (List.length (SkewT.skewtline data) < 2)%nat ->
  SkewT.mousemove Math_log Math_exp Math_tan data width height speedUnit py t
  = Ok t.
Proof.
  intros H. unfold SkewT.mousemove.
  now rewrite component_nearest_short.
Qed.

(** With fewer than two samples to search, whatever the pointer does, the
    component's listeners end without an exception and no focus group ever
    gets a label or a position. *)
Lemma component_short_profile_no_readout
      (es : list DrawFunctions.pointerEvent) :
  (List.length (SkewT.skewtline data) < 2)%nat ->
  exists t,
    SkewT.run Math_log Math_exp Math_tan data width height speedUnit es
              DrawFunctions.initialTooltips = Ok t
    /\ noReadout t.
Proof.
  intros Hlen.
  assert (G : forall t0, noReadout t0 ->
                exists t, SkewT.run Math_log Math_exp Math_tan data width height
                                    speedUnit es t0 = Ok t /\ noReadout t).
  { induction es as [|e es' IH]; intros t0 H0; simpl.
    - eauto.
    - destruct e as [| |py]; simpl.
      + apply IH. unfold noReadout in *. simpl. exact H0.
      + apply IH. unfold noReadout in *. simpl. exact H0.
      + rewrite component_mousemove_short by assumption. simpl. now apply IH. }
  apply G. unfold noReadout. simpl. repeat split.
Qed.

End ComponentProbe.


(** For an empty profile the component draws the background over the
    default top pressure (15 isotherms, the 8 isobars, 14 dry adiabats), two
    empty profile paths and no wind barb. *)
Lemma empty_profile_still_renders
      (Math_log Math_tan : number -> number)
      (Math_pow : number -> number -> number) (width height : number) :
  SkewT.topp [] = 90
  /\ SkewT.templines Math_log Math_tan [] width height = [[]]
  /\ SkewT.dewlines Math_log Math_tan [] width height = [[]]
  /\ SkewT.drawBarbs Math_log [] width height = []
  /\ List.length (DrawFunctions.bgTemplines
                    (SkewT.drawBackground Math_log Math_tan Math_pow [] width height))
     = 15%nat
  /\ List.length (DrawFunctions.bgPressurelines
                    (SkewT.drawBackground Math_log Math_tan Math_pow [] width height))
     = 8%nat
  /\ List.length (DrawFunctions.bgDryadiabats
                    (SkewT.drawBackground Math_log Math_tan Math_pow [] width height))
     = 14%nat.
Proof. repeat split. Qed.

(** C5 (the utility's handler).  On a profile with fewer than two samples
    the [mousemove] handler of [setupTooltips] in [drawFunctions.ts] reads
    [press] of an [undefined] element and throws; the component's handler,
    which has the index guard, does not ([component_mousemove_short],
    [component_short_profile_no_readout]). *)
Theorem utility_probe_throws_on_short_profile
        (x y : number -> number) (basep tan w : number) (unit : string)
        (y_invert : number -> number) (data : list SkewTMeasurement)
        (py : number) (t : DrawFunctions.tooltips) :
  (List.length data < 2)%nat ->
  DrawFunctions.mousemove x y basep tan w unit y_invert data py t = TypeError.
Proof.
  intros H. unfold DrawFunctions.mousemove.
  now rewrite utility_nearest_short.
Qed.

Lemma utility_probe_throws_on_short_profile_witness :
  DrawFunctions.mousemove
    (SkewT.x 750) (SkewT.y Engine.log [] 620) SkewT.basep tan55
    (SkewT.w 750) "kmh" (SkewT.y_invert Engine.log Engine.exp [] 620)
    [] 260 DrawFunctions.initialTooltips
  = TypeError.
Proof.
  apply utility_probe_throws_on_short_profile. simpl. lia.
Defined.

(** C2 (at the failing input).  On the profile 1000, 850, 700, 500 hPa,
    in that order, a probe at 780 hPa selects the 700 hPa sample, in the
    utility and in the component: the bisection presumes pressures in
    ascending order.  On the same levels in ascending order it selects the
    850 hPa sample. *)
Theorem probe_on_descending_profile :
  DrawFunctions.nearest profile4 780 = Ok (level 700 2 (-5))
  /\ SkewT.nearest profile4 780 = Ok (Some (level 700 2 (-5)))
  /\ DrawFunctions.nearest (rev profile4) 780 = Ok (level 850 14 8)
  /\ SkewT.nearest (rev profile4) 780 = Ok (Some (level 850 14 8)).
Proof. repeat split; vm_compute; reflexivity. Qed.

(** ** Profile lines *)

Section LineGenerator.

Context {A : Type} (defined : A -> bool) (pt : A -> number * number).

Lemma line_loop_open (data : list A) (cur : list (number * number)) :
  Forall (fun d => defined d = true) data ->
  D3.line_loop defined pt data true cur = [(rev cur ++ map pt data)%list].
Proof.
  revert cur. induction data as [|d data IH]; intros cur H; simpl.
  - now rewrite app_nil_r.
  - inversion H as [|? ? Hd Hdata]; subst. rewrite Hd.
    rewrite IH by assumption. simpl. now rewrite <- app_assoc.
Qed.

(** A line generator whose data are all defined draws one sub-path. *)
Lemma line_loop_all_defined (data : list A) :
  Forall (fun d => defined d = true) data ->
  D3.line_loop defined pt data false [] = onePath pt data.
Proof.
  destruct data as [|d data]; intros H; simpl; [reflexivity|].
  inversion H as [|? ? Hd Hdata]; subst. rewrite Hd.
  now rewrite line_loop_open.
Qed.

(** Every point a line generator emits is the point of a datum. *)
Lemma line_loop_points (data : list A) (defined0 : bool)
      (cur sub : list (number * number)) (q : number * number) :
  In sub (D3.line_loop defined pt data defined0 cur) -> In q sub ->
  In q cur \/ exists d, In d data /\ q = pt d.
Proof.
  revert defined0 cur. induction data as [|d data IH]; intros defined0 cur; simpl.
  - destruct defined0; simpl; [|tauto].
    intros [<-|[]] Hq. left. now apply in_rev.
  - destruct (defined d).
    + intros Hs Hq. destruct (IH _ _ Hs Hq) as [Hc|(d' & Hd' & ->)].
      * destruct Hc as [<-|Hc]; [right; eauto|].
        destruct defined0; [now left | destruct Hc].
      * right; eauto.
    + destruct defined0; simpl.
      * intros [<-|Hs] Hq; [left; now apply in_rev|].
        destruct (IH _ _ Hs Hq) as [[]|(d' & Hd' & ->)]. right; eauto.
      * intros Hs Hq.
        destruct (IH _ _ Hs Hq) as [[]|(d' & Hd' & ->)]. right; eauto.
Qed.

End LineGenerator.

Lemma skewtline_defined (data : list SkewTMeasurement) :
  Forall (fun d => DrawFunctions.definedTemp d = true) (DrawFunctions.skewtline data)
  /\ Forall (fun d => DrawFunctions.definedDwpt d = true) (DrawFunctions.skewtline data).
Proof.
  unfold DrawFunctions.skewtline.
  split; apply Forall_forall; intros d Hd; apply filter_In in Hd;
    destruct Hd as [_ Hd]; apply andb_true_iff in Hd; tauto.
Qed.

(** C3 (amended).  The samples whose temperature or dew point is undefined
    are removed before either line is generated, so the line generators
    never meet an undefined sample: the temperature path, and the dew point
    path, is one undivided sub-path through the samples that remain, in
    their order (no sub-path when none remains), in the utility and in the
    component. *)
Theorem profile_lines_are_undivided
        (x y : number -> number) (basep tan : number)
        (data : list SkewTMeasurement) :
  DrawFunctions.drawTempDewLines x y basep tan data
  = ([onePath (tempPoint x y basep tan) (DrawFunctions.skewtline data)],
     [onePath (dewPoint x y basep tan) (DrawFunctions.skewtline data)],
     DrawFunctions.skewtline data)
  /\ (forall Math_log Math_tan width height,
         SkewT.templines Math_log Math_tan data width height
         = [onePath (tempPoint (SkewT.x width) (SkewT.y Math_log data height)
                               SkewT.basep (SkewT.tan Math_tan))
                    (SkewT.skewtline data)]
         /\ SkewT.dewlines Math_log Math_tan data width height
            = [onePath (dewPoint (SkewT.x width) (SkewT.y Math_log data height)
                                 SkewT.basep (SkewT.tan Math_tan))
                       (SkewT.skewtline data)]).
Proof.
  destruct (skewtline_defined data) as [Ht Hd].
  split.
  - unfold DrawFunctions.drawTempDewLines. simpl.
    unfold DrawFunctions.templine, DrawFunctions.dewpointline, D3.line.
    rewrite (line_loop_all_defined _ _ _ Ht), (line_loop_all_defined _ _ _ Hd).
    reflexivity.
  - intros. unfold SkewT.templines, SkewT.dewlines, SkewT.skewtlines. simpl.
    unfold SkewT.templine, SkewT.dewline, D3.line.
    change (SkewT.skewtline data) with (DrawFunctions.skewtline data).
    rewrite (line_loop_all_defined
               (fun d => isNumberAnd (temp d) (fun t => -1000 <? t)) _ _ Ht).
    rewrite (line_loop_all_defined
               (fun d => isNumberAnd (dwpt d) (fun t => -1000 <? t)) _ _ Hd).
    split; reflexivity.
Qed.

(** C3 (as stated, refuted).  In [gapProfile] the level at 850 hPa has no
    temperature; the temperature path drawn for it is a single sub-path that
    joins the point of the 1000 hPa level to the point of the 700 hPa
    level. *)
Lemma gap_is_bridged :
  DrawFunctions.definedTemp (nth 1 gapProfile (level 0 0 0)) = false
  /\ fst (fst (DrawFunctions.drawTempDewLines chartX chartY 1050 tan55 gapProfile))
     = [[[tempPoint chartX chartY 1050 tan55 (level 1000 25 20);
          tempPoint chartX chartY 1050 tan55 (level 700 2 (-5))]]]
  /\ Forall (joined (tempPoint chartX chartY 1050 tan55 (level 1000 25 20))
                    (tempPoint chartX chartY 1050 tan55 (level 700 2 (-5))))
            (fst (fst (DrawFunctions.drawTempDewLines chartX chartY 1050 tan55
                                                      gapProfile))).
Proof.
  split; [reflexivity|]. split; [vm_compute; reflexivity|].
  constructor; [|constructor].
  eexists _, [], []. split; [left; reflexivity|].
  vm_compute. reflexivity.
Qed.

(** ** Wind-barb placement *)

(** The utility places a barb for exactly the samples whose wind direction
    and speed are numbers, both non-negative, at a pressure of at least
    [topp]; the barb is at [(w, y(press))], rotated by [wdir + 180]. *)
Lemma utility_barb_placement
      (topp w : number) (y : number -> number)
      (data : list SkewTMeasurement) (u : useElem) :
  In u (WindBarbs.drawWindBarbs topp w y data)
  <-> exists d wd ws,
      In d data /\ wdir d = Some wd /\ wspd d = Some ws
      /\ (0 <=? wd) = true /\ (0 <=? ws) = true /\ (topp <=? press d) = true
      /\ u = {| href := concatNumber "#barb"
                          (Math_round (ws * 1.943844492 / 5) * 5);
                transform := TranslateRotate w (y (press d)) (wd + 180) |}.
Proof.
  unfold WindBarbs.drawWindBarbs. rewrite in_map_iff. split.
  - intros (d & <- & Hd). apply filter_In in Hd. destruct Hd as [Hd Hv].
    unfold WindBarbs.validWind in Hv.
    destruct (wdir d) as [wd|] eqn:Ewd; [|discriminate].
    destruct (wspd d) as [ws|] eqn:Ews; [|discriminate].
    apply andb_true_iff in Hv. destruct Hv as [Hv Hp].
    apply andb_true_iff in Hv. destruct Hv as [Hwd Hws].
    exists d, wd, ws. repeat split; auto.
    unfold WindBarbs.barbUse, WindBarbs.kts. now rewrite Ewd, Ews.
  - intros (d & wd & ws & Hd & Ewd & Ews & Hwd & Hws & Hp & ->).
    exists d. split.
    + unfold WindBarbs.barbUse, WindBarbs.kts. now rewrite Ewd, Ews.
    + apply filter_In. split; [exact Hd|].
      unfold WindBarbs.validWind. now rewrite Ewd, Ews, Hwd, Hws, Hp.
Qed.

(** The utility's filter does not look at any other field. *)
Lemma utility_filter_ignores_other_fields
      (topp : number) (d : SkewTMeasurement) (h t dw : option number) :
  WindBarbs.validWind topp
    {| press := press d; hght := h; temp := t; dwpt := dw;
       wdir := wdir d; wspd := wspd d |}
  = WindBarbs.validWind topp d.
Proof. reflexivity. Qed.

(** The component filters the samples already kept for the profile lines:
    a barb also needs a defined temperature and a defined dew point. *)
Lemma component_barb_filter
      (data : list SkewTMeasurement) (d : SkewTMeasurement) :
  In d (SkewT.barbs data)
  <-> In d data
      /\ DrawFunctions.definedTemp d = true
      /\ DrawFunctions.definedDwpt d = true
      /\ WindBarbs.validWind (SkewT.topp data) d = true.
Proof.
  unfold SkewT.barbs, SkewT.skewtline. rewrite !filter_In, andb_true_iff.
  assert (E : SkewT.validWind data d = WindBarbs.validWind (SkewT.topp data) d).
  { unfold SkewT.validWind, WindBarbs.validWind.
    destruct (wdir d), (wspd d); simpl; try reflexivity.
    all: now rewrite ?andb_false_r. }
  rewrite E. tauto.
Qed.

(** C4 (at the failing input).  A sample at 850 hPa with wind from 220
    degrees at 12 m/s and no temperature or dew point passes the wind
    filter; the utility places its barb, ["#barb25"] at
    [(w, y(850))] rotated by 400 degrees, and the component places none. *)
Theorem component_drops_barb_without_temperature :
  let d := windOnly 850 220 12 in
  WindBarbs.validWind (SkewT.topp [d]) d = true
  /\ (forall w y,
         WindBarbs.drawWindBarbs (SkewT.topp [d]) w y [d]
         = [ {| href := Some "#barb25";
                transform := TranslateRotate w (y 850) 400 |} ])
  /\ SkewT.barbs [d] = []
  /\ (forall Math_log width height,
         SkewT.drawBarbs Math_log [d] width height = []).
Proof. repeat split. Qed.

(** ** The skew formula *)

(** The component's inline line generators, isotherms and dry adiabats are
    the utility's on the component's frame. *)
Lemma component_geometry
      (Math_log Math_tan : number -> number)
      (Math_pow : number -> number -> number)
      (data : list SkewTMeasurement) (width height : number) :
  let cx := SkewT.x width in
  let cy := SkewT.y Math_log data height in
  let ct := SkewT.tan Math_tan in
  (forall t, SkewT.templineElem Math_log Math_tan data width height t
             = DrawFunctions.templineElem cx cy SkewT.basep ct (SkewT.h height) t)
  /\ (forall l, SkewT.templine Math_log Math_tan data width height l
                = DrawFunctions.templine cx cy SkewT.basep ct l)
  /\ (forall l, SkewT.dewline Math_log Math_tan data width height l
                = DrawFunctions.dewpointline cx cy SkewT.basep ct l)
  /\ (forall dp, SkewT.drylineX Math_log Math_tan Math_pow data width height dp
                 = DrawFunctions.drylineX cx cy SkewT.basep ct Math_pow dp)
  /\ SkewT.dryadiabats Math_log Math_tan Math_pow data width height
     = DrawFunctions.dryadiabats cx cy SkewT.basep ct Math_pow (SkewT.topp data).
Proof. repeat split. Qed.

(** C1 (amended).  In every frame, and so in the component's, the
    x-coordinate of a profile-line point
    (temperature or dew point) is [skewX] of the sample's value and
    pressure, and the x-coordinate computed for a dry-adiabat point is
    [skewX] of the adiabat's display temperature and the pressure, replaced
    by 0 when that is [NaN]; so a temperature point and a dry-adiabat point
    of the same temperature and pressure have the same x-coordinate unless
    it is [NaN].  The positions of the temperature and dew point read-outs
    use the same expression.  The bottom end of the isotherm of [t], drawn
    at the base pressure, is at [x(t) - 0.5]: half a pixel left of [skewX]
    of [t] and the base pressure, in a frame whose [y(basep)] is finite and
    whose tangent is a non-zero number. *)
Theorem skew_formula_shared
        (x y : number -> number) (basep tan : number)
        (Math_pow : number -> number -> number) :
  (forall d, DrawFunctions.templineX x y basep tan d
             = DrawFunctions.skewX x y basep tan (toNumber (temp d)) (press d))
  /\ (forall d, DrawFunctions.dewpointlineX x y basep tan d
                = DrawFunctions.skewX x y basep tan (toNumber (dwpt d)) (press d))
  /\ (forall theta p,
         DrawFunctions.drylineX x y basep tan Math_pow (theta, p)
         = let v := DrawFunctions.skewX x y basep tan
                      (displayTemp Math_pow theta p) p in
           if isNaN v then 0 else v)
  /\ (forall d theta,
         toNumber (temp d) = displayTemp Math_pow theta (press d) ->
         isNaN (DrawFunctions.skewX x y basep tan (toNumber (temp d)) (press d))
         = false ->
         DrawFunctions.templineX x y basep tan d
         = DrawFunctions.drylineX x y basep tan Math_pow (theta, press d))
  /\ (forall w unit d t v,
         temp d = Some v -> (-1000 <? v) = true ->
         DrawFunctions.position
           (DrawFunctions.tmpcfocus
              (DrawFunctions.showSample x y basep tan w unit d t))
         = Some (DrawFunctions.skewX x y basep tan v (press d), y (press d)))
  /\ (forall h t, x2 (DrawFunctions.templineElem x y basep tan h t) = x t - 0.5)
  /\ (forall h t,
         is_finite (y basep) = true -> is_nan tan = false -> (tan =? 0) = false ->
         x2 (DrawFunctions.templineElem x y basep tan h t)
         = DrawFunctions.skewX x y basep tan t basep - 0.5)
  /\ (forall Math_log Math_tan data width height,
         let cx := SkewT.x width in
         let cy := SkewT.y Math_log data height in
         let ct := SkewT.tan Math_tan in
         (forall l, SkewT.templine Math_log Math_tan data width height l
                    = DrawFunctions.templine cx cy SkewT.basep ct l)
         /\ (forall l, SkewT.dewline Math_log Math_tan data width height l
                       = DrawFunctions.dewpointline cx cy SkewT.basep ct l)
         /\ (forall dp,
                SkewT.drylineX Math_log Math_tan Math_pow data width height dp
                = DrawFunctions.drylineX cx cy SkewT.basep ct Math_pow dp)
         /\ (forall t,
                x2 (SkewT.templineElem Math_log Math_tan data width height t)
                = cx t - 0.5)).
Proof.
  split; [reflexivity|]. split; [reflexivity|]. split; [reflexivity|].
  split; [|split; [|split; [reflexivity | split; [|repeat split]]]].
  - intros d theta Ht Hn.
    unfold DrawFunctions.drylineX, DrawFunctions.drylineXVal.
    change (x ((273.15 + theta) / Math_pow (1000 / press d) 0.286 - 273.15))
      with (x (displayTemp Math_pow theta (press d))).
    rewrite <- Ht.
    change (x (toNumber (temp d)) + (y basep - y (press d)) / tan)
      with (DrawFunctions.skewX x y basep tan (toNumber (temp d)) (press d)).
    rewrite Hn. reflexivity.
  - intros w unit d t v Hv Hd. unfold DrawFunctions.showSample.
    simpl. rewrite Hv, Hd. reflexivity.
  - intros h t Hy Hn Hz. unfold DrawFunctions.skewX. simpl.
    rewrite (sub_self _ Hy).
    destruct (zero_div tan Hn Hz) as [s Hs].
    symmetry. now apply add_zero_sub_half with s.
Qed.

Lemma skew_formula_shared_witness :
  let d := level 1000 (displayTemp Engine.pow 20 1000) 0 in
  DrawFunctions.templineX chartX chartY 1050 tan55 d
  = DrawFunctions.drylineX chartX chartY 1050 tan55 Engine.pow (20, press d).
Proof.
  apply (proj1 (proj2 (proj2 (proj2
           (skew_formula_shared chartX chartY 1050 tan55 Engine.pow)))));
    reflexivity.
Defined.

(** C1 (as stated, refuted).  In the component's frame the bottom end of
    the 0 degree isotherm, which lies at the base pressure of 1050 hPa, is at
    x = 396.1666..., half a pixel left of the skew formula's value for
    (0, 1050), 396.6666.... *)
Lemma isotherm_is_off_the_skew_formula :
  y2 (DrawFunctions.templineElem chartX chartY 1050 tan55 520 0) = chartY 1050
  /\ x2 (DrawFunctions.templineElem chartX chartY 1050 tan55 520 0)
     = 396.16666666666669
  /\ DrawFunctions.skewX chartX chartY 1050 tan55 0 1050 = 396.66666666666669
  /\ (x2 (DrawFunctions.templineElem chartX chartY 1050 tan55 520 0)
      =? DrawFunctions.skewX chartX chartY 1050 tan55 0 1050) = false.
Proof. repeat split; vm_compute; reflexivity. Qed.

(** ** Dry adiabats *)

(** C6 (amended).  The x-coordinate emitted for a dry-adiabat point is the
    computed value unless that is [NaN], and 0 when it is; so no point of a
    dry adiabat has a [NaN] x-coordinate, in the utility and in the
    component.  (A computed value that is plus or minus infinity is emitted
    as it is.) *)
Theorem dry_adiabat_x_is_never_NaN
        (x y : number -> number) (basep tan : number)
        (Math_pow : number -> number -> number) (topp : number) :
  (forall dp,
     DrawFunctions.drylineX x y basep tan Math_pow dp
     = if isNaN (DrawFunctions.drylineXVal x y basep tan Math_pow dp) then 0
       else DrawFunctions.drylineXVal x y basep tan Math_pow dp)
  /\ (forall dp, isNaN (DrawFunctions.drylineX x y basep tan Math_pow dp) = false)
  /\ (forall p sub q,
         In p (DrawFunctions.dryadiabats x y basep tan Math_pow topp) ->
         In sub p -> In q sub -> isNaN (fst q) = false)
  /\ (forall Math_log Math_tan data width height p sub q,
         In p (SkewT.dryadiabats Math_log Math_tan Math_pow data width height) ->
         In sub p -> In q sub -> isNaN (fst q) = false).
Proof.
  assert (G : forall x y basep tan topp p sub q,
             In p (DrawFunctions.dryadiabats x y basep tan Math_pow topp) ->
             In sub p -> In q sub -> isNaN (fst q) = false).
  { clear. intros x y basep tan topp p sub q Hp Hsub Hq.
    unfold DrawFunctions.dryadiabats in Hp. apply in_map_iff in Hp.
    destruct Hp as (z & <- & _).
    unfold DrawFunctions.dryline, D3.line in Hsub.
    destruct (line_loop_points _ _ _ _ _ _ _ Hsub Hq) as [[]|(dp & _ & ->)].
    simpl. unfold DrawFunctions.drylineX.
    destruct (isNaN (DrawFunctions.drylineXVal x y basep tan Math_pow dp)) eqn:E;
      [reflexivity | exact E]. }
  assert (N : forall dp,
             isNaN (DrawFunctions.drylineX x y basep tan Math_pow dp) = false).
  { intros dp. unfold DrawFunctions.drylineX.
    destruct (isNaN (DrawFunctions.drylineXVal x y basep tan Math_pow dp)) eqn:E;
      [reflexivity | exact E]. }
  split; [reflexivity|]. split; [exact N|].
  split; [apply G|].
  intros Math_log Math_tan data width height. apply G.
Qed.

Lemma dry_adiabat_x_is_never_NaN_witness :
  isNaN (fst (DrawFunctions.drylineX chartX chartY 1050 tan55 Engine.pow (-30, 690),
              DrawFunctions.drylineY chartY (-30, 690)))
  = false.
Proof.
  apply (proj1 (proj2 (proj2
           (dry_adiabat_x_is_never_NaN chartX chartY 1050 tan55 Engine.pow 690)))
           (DrawFunctions.dryline chartX chartY 1050 tan55 Engine.pow
              (map (fun p => (-30, p)) (DrawFunctions.pp 1050 690)))
           (map (fun dp => (DrawFunctions.drylineX chartX chartY 1050 tan55
                                                   Engine.pow dp,
                            DrawFunctions.drylineY chartY dp))
                (map (fun p => (-30, p)) (DrawFunctions.pp 1050 690)))).
  - left. reflexivity.
  - left. vm_compute. reflexivity.
  - left. reflexivity.
Defined.

(** C6 (as stated, refuted).  With a skew tangent of 0 (a skew angle of
    0 degrees) the x-coordinate computed for the dry adiabat of -30 degrees at
    690 hPa is plus infinity; it is not [NaN], and it is emitted: the first
    point of the first dry adiabat is [(infinity, 0)]. *)
Lemma dry_adiabat_x_can_be_infinite :
  DrawFunctions.drylineX chartX chartY 1050 0 Engine.pow (-30, 690) = infinity
  /\ is_finite (DrawFunctions.drylineX chartX chartY 1050 0 Engine.pow (-30, 690))
     = false
  /\ (exists sub rest,
        hd_error (DrawFunctions.dryadiabats chartX chartY 1050 0 Engine.pow 690)
        = Some [(infinity, 0) :: sub]
        /\ DrawFunctions.bgDryadiabats
             (DrawFunctions.drawBackground chartX chartY 1050 0 Engine.pow
                680 520 Constants.STANDARD_PRESSURE_LINES 690)
           = [(infinity, 0) :: sub] :: rest).
Proof.
  split; [vm_compute; reflexivity|]. split; [vm_compute; reflexivity|].
  eexists _, _. split; vm_compute; reflexivity.
Qed.

(** * Further properties *)

(** ** The probe, further *)

Section ProbeBracket.

Context {A : Type} (f : A -> number).

(** The loop of the bisection keeps its bracket: whatever lies just below
    the lower index was found below [x], whatever lies at the upper index
    was found not below [x]. *)
Lemma bisect_loop_bracket (a : list A) (x : number) (lo hi i : Z) :
  forall lo0 hi0 : Z,
  (lo <= hi)%Z ->
  (lo = lo0 \/ exists d, index a (lo - 1) = Some d /\ (f d <? x) = true) ->
  (hi = hi0 \/ exists d, index a hi = Some d /\ (f d <? x) = false) ->
  D3.bisect_loop f a x lo hi = Ok i ->
  (i = lo0 \/ exists d, index a (i - 1) = Some d /\ (f d <? x) = true)
  /\ (i = hi0 \/ exists d, index a i = Some d /\ (f d <? x) = false).
Proof.
  funelim (D3.bisect_loop f a x lo hi); intros lo0 hi0 Hle Hl Hh Hr.
  - injection Hr as <-. assert (lo = hi) by lia. subst hi. auto.
  - assert (lo <= (lo + hi) / 2 < hi)%Z
      by (split; [apply Z.div_le_lower_bound | apply Z.div_lt_upper_bound]; lia).
    destruct (f d <? x) eqn:E.
    + apply (H i lo0 hi0); try assumption; try lia.
      right. exists d. rewrite Z.add_simpl_r. auto.
    + apply (H0 i lo0 hi0); try assumption; try lia.
      right. exists d. auto.
  - discriminate.
Qed.

Lemma bisectLeft_bracket (a : list A) (x : number) (lo hi i : Z) :
  is_nan x = false -> (lo <= hi)%Z ->
  D3.bisectLeft f a x lo hi = Ok i ->
  (i = lo \/ exists d, index a (i - 1) = Some d /\ (f d <? x) = true)
  /\ (i = hi \/ exists d, index a i = Some d /\ (f d <? x) = false).
Proof.
  unfold D3.bisectLeft. intros Hx Hle. rewrite Hx.
  destruct (lo <? hi)%Z eqn:E.
  - apply bisect_loop_bracket; auto.
  - intros [= <-]. split; left; [reflexivity | lia].
Qed.

End ProbeBracket.

Lemma index_In {A} (l : list A) (i : Z) (d : A) : index l i = Some d -> In d l.
Proof.
  unfold index. destruct (i <? 0)%Z; [discriminate|]. apply nth_error_In.
Qed.

Lemma leb_ltb_trans (a b c : number) :
  (a <=? b) = true -> (b <? c) = true -> (a <? c) = true.
Proof.
  rewrite FloatAxioms.leb_spec, !FloatAxioms.ltb_spec.
  unfold SFleb, SFltb.
  destruct (SFcompare (Prim2SF a) (Prim2SF b)) as [[]|] eqn:E1; try discriminate;
    intros _.
  - now rewrite (SFcompare_Eq_l _ _ _ E1).
  - destruct (SFcompare (Prim2SF b) (Prim2SF c)) as [[]|] eqn:E2; try discriminate.
    intros _.
    assert (L1 : SFleb (Prim2SF a) (Prim2SF b) = true) by (unfold SFleb; now rewrite E1).
    assert (L2 : SFleb (Prim2SF b) (Prim2SF c) = true) by (unfold SFleb; now rewrite E2).
    pose proof (SFleb_trans _ _ _ L1 L2) as L3. unfold SFleb in L3.
    destruct (SFcompare (Prim2SF a) (Prim2SF c)) as [[]|] eqn:E3; try discriminate;
      try reflexivity.
    exfalso.
    rewrite (SFcompare_Eq_l _ _ _ E3), SFcompare_antisym, E2 in E1.
    discriminate.
Qed.

Lemma ascending_nth (l : list SkewTMeasurement) :
  ascending l ->
  forall (j k : nat) dj dk,
    (j < k)%nat -> nth_error l j = Some dj -> nth_error l k = Some dk ->
    (press dj <=? press dk) = true.
Proof.
  induction l as [|a l IH]; intros Ha j k dj dk Hjk Hj Hk.
  - destruct j; discriminate.
  - destruct Ha as [HF Ha].
    destruct k as [|k]; [lia|]. destruct j as [|j]; simpl in Hj, Hk.
    + injection Hj as <-. apply nth_error_In in Hk.
      rewrite Forall_forall in HF. now apply HF.
    + apply (IH Ha j k); auto; lia.
Qed.

Lemma ascending_index (l : list SkewTMeasurement) (j k : Z) dj dk :
  ascending l -> (j < k)%Z -> index l j = Some dj -> index l k = Some dk ->
  (press dj <=? press dk) = true.
Proof.
  unfold index. intros Ha Hjk.
  destruct (j <? 0)%Z eqn:Ej; [discriminate|].
  destruct (k <? 0)%Z eqn:Ek; [discriminate|].
  intros Hj Hk. apply (ascending_nth l Ha (Z.to_nat j) (Z.to_nat k)); auto; lia.
Qed.

Lemma ascending_filter (keep : SkewTMeasurement -> bool)
      (l : list SkewTMeasurement) :
  ascending l -> ascending (filter keep l).
Proof.
  induction l as [|a l IH]; simpl; [auto|]. intros [HF Ha].
  destruct (keep a); simpl; auto. split; auto.
  rewrite Forall_forall in *. intros e He. apply filter_In in He. apply HF, He.
Qed.

(** On an ascending list the index the bisection returns separates the
    samples below [y0] from the others, the first and the last sample
    apart (the search runs over the indices 1 to length - 1). *)
Lemma probe_index_straddles (l : list SkewTMeasurement) (y0 : number) (i : Z) :
  ascending l -> is_nan y0 = false -> (2 <= List.length l)%nat ->
  D3.bisectLeft press l y0 1 (Z.of_nat (List.length l) - 1) = Ok i ->
  ((1 < i)%Z ->
   forall j d, (j < i)%Z -> index l j = Some d -> (press d <? y0) = true)
  /\ ((i < Z.of_nat (List.length l) - 1)%Z ->
      forall j d, (i <= j)%Z -> index l j = Some d -> (press d <? y0) = false).
Proof.
  intros Ha Hy Hlen Hi.
  destruct (bisectLeft_bracket press l y0 1 (Z.of_nat (List.length l) - 1) i
              Hy ltac:(lia) Hi) as [Hl Hh].
  split.
  - intros H1 j d Hj Hd. destruct Hl as [->|(d' & Hd' & Hlt)]; [lia|].
    destruct (Z.eq_dec j (i - 1)) as [->|Hne].
    + rewrite Hd in Hd'. now injection Hd' as ->.
    + apply (leb_ltb_trans _ (press d')); [|exact Hlt].
      apply (ascending_index l j (i - 1)); auto; lia.
  - intros H1 j d Hj Hd. destruct Hh as [->|(d' & Hd' & Hlt)]; [lia|].
    destruct (Z.eq_dec j i) as [->|Hne].
    + rewrite Hd in Hd'. now injection Hd' as ->.
    + destruct (press d <? y0) eqn:E; [|reflexivity].
      rewrite <- Hlt. symmetry. apply (leb_ltb_trans _ (press d)); [|exact E].
      apply (ascending_index l i j); auto; lia.
Qed.

(** On a profile of two samples or more listed by ascending pressure, the
    utility's handler chooses between two neighbours that straddle the
    pointer: unless the lower one is the first sample, every sample up to
    it lies below the pointer's pressure [y0]; unless the upper one is the
    last sample, no sample from it on lies below [y0]. *)
Theorem utility_probe_straddles_pointer
        (data : list SkewTMeasurement) (y0 : number) :
  ascending data -> is_nan y0 = false -> (2 <= List.length data)%nat ->
  exists i d0 d1,
    (1 <= i <= Z.of_nat (List.length data) - 1)%Z
    /\ index data (i - 1) = Some d0
    /\ index data i = Some d1
    /\ DrawFunctions.nearest data y0
       = Ok (if Math_abs (y0 - press d0) <? Math_abs (y0 - press d1)
             then d0 else d1)
    /\ ((1 < i)%Z ->
        forall j d, (j < i)%Z -> index data j = Some d -> (press d <? y0) = true)
    /\ ((i < Z.of_nat (List.length data) - 1)%Z ->
        forall j d, (i <= j)%Z -> index data j = Some d -> (press d <? y0) = false).
Proof.
  intros Ha Hy Hlen. unfold DrawFunctions.nearest.
  destruct (bisectLeft_total press data y0 1 (Z.of_nat (List.length data) - 1))
    as [i Hi]; try lia.
  pose proof (bisectLeft_bounds press data y0 1
                (Z.of_nat (List.length data) - 1) i ltac:(lia) Hi) as Hb.
  destruct (probe_index_straddles data y0 i Ha Hy Hlen Hi) as [S1 S2].
  rewrite Hi. simpl.
  unfold index in *.
  destruct (i - 1 <? 0)%Z eqn:E1; [lia|].
  destruct (i <? 0)%Z eqn:E2; [lia|].
  destruct (nth_error data (Z.to_nat (i - 1))) as [d0|] eqn:N0;
    [|apply nth_error_None in N0; lia].
  destruct (nth_error data (Z.to_nat i)) as [d1|] eqn:N1;
    [|apply nth_error_None in N1; lia].
  exists i, d0, d1. rewrite E1, E2, N0, N1. auto 10.
Qed.

Lemma utility_probe_straddles_pointer_witness :
  exists i d0 d1,
    (1 <= i <= Z.of_nat (List.length (rev profile4)) - 1)%Z
    /\ index (rev profile4) (i - 1) = Some d0
    /\ index (rev profile4) i = Some d1
    /\ DrawFunctions.nearest (rev profile4) 780
       = Ok (if Math_abs (780 - press d0) <? Math_abs (780 - press d1)
             then d0 else d1)
    /\ ((1 < i)%Z ->
        forall j d, (j < i)%Z -> index (rev profile4) j = Some d ->
                    (press d <? 780) = true)
    /\ ((i < Z.of_nat (List.length (rev profile4)) - 1)%Z ->
        forall j d, (i <= j)%Z -> index (rev profile4) j = Some d ->
                    (press d <? 780) = false).
Proof.
  apply (utility_probe_straddles_pointer (rev profile4) 780).
  - simpl. repeat split; repeat constructor.
  - reflexivity.
  - simpl. lia.
Defined.

(** The same for the component, whose handler searches the samples kept
    for the profile lines. *)
Theorem component_probe_straddles_pointer
        (data : list SkewTMeasurement) (y0 : number) :
  ascending data -> is_nan y0 = false ->
  (2 <= List.length (SkewT.skewtline data))%nat ->
  exists i d0 d1,
    (1 <= i <= Z.of_nat (List.length (SkewT.skewtline data)) - 1)%Z
    /\ index (SkewT.skewtline data) (i - 1) = Some d0
    /\ index (SkewT.skewtline data) i = Some d1
    /\ SkewT.nearest data y0
       = Ok (Some (if Math_abs (y0 - press d0) <? Math_abs (y0 - press d1)
                   then d0 else d1))
    /\ ((1 < i)%Z ->
        forall j d, (j < i)%Z -> index (SkewT.skewtline data) j = Some d ->
                    (press d <? y0) = true)
    /\ ((i < Z.of_nat (List.length (SkewT.skewtline data)) - 1)%Z ->
        forall j d, (i <= j)%Z -> index (SkewT.skewtline data) j = Some d ->
                    (press d <? y0) = false).
Proof.
  intros Ha Hy Hlen. unfold SkewT.nearest.
  assert (Hs : ascending (SkewT.skewtline data)) by now apply ascending_filter.
  set (l := SkewT.skewtline data) in *.
  destruct (bisectLeft_total press l y0 1 (Z.of_nat (List.length l) - 1))
    as [i Hi]; try lia.
  pose proof (bisectLeft_bounds press l y0 1
                (Z.of_nat (List.length l) - 1) i ltac:(lia) Hi) as Hb.
  destruct (probe_index_straddles l y0 i Hs Hy Hlen Hi) as [S1 S2].
  rewrite Hi. simpl.
  destruct (i <=? 0)%Z eqn:G1; [lia|].
  destruct (Z.of_nat (List.length l) <=? i)%Z eqn:G2; [lia|]. simpl.
  unfold index in *.
  destruct (i - 1 <? 0)%Z eqn:E1; [lia|].
  destruct (i <? 0)%Z eqn:E2; [lia|].
  destruct (nth_error l (Z.to_nat (i - 1))) as [d0|] eqn:N0;
    [|apply nth_error_None in N0; lia].
  destruct (nth_error l (Z.to_nat i)) as [d1|] eqn:N1;
    [|apply nth_error_None in N1; lia].
  exists i, d0, d1. rewrite E1, E2, N0, N1. auto 10.
Qed.

Lemma component_probe_straddles_pointer_witness :
  exists i d0 d1,
    (1 <= i <= Z.of_nat (List.length (SkewT.skewtline (rev profile4))) - 1)%Z
    /\ index (SkewT.skewtline (rev profile4)) (i - 1) = Some d0
    /\ index (SkewT.skewtline (rev profile4)) i = Some d1
    /\ SkewT.nearest (rev profile4) 780
       = Ok (Some (if Math_abs (780 - press d0) <? Math_abs (780 - press d1)
                   then d0 else d1))
    /\ ((1 < i)%Z ->
        forall j d, (j < i)%Z -> index (SkewT.skewtline (rev profile4)) j = Some d ->
                    (press d <? 780) = true)
    /\ ((i < Z.of_nat (List.length (SkewT.skewtline (rev profile4))) - 1)%Z ->
        forall j d, (i <= j)%Z -> index (SkewT.skewtline (rev profile4)) j = Some d ->
                    (press d <? 780) = false).
Proof.
  apply (component_probe_straddles_pointer (rev profile4) 780).
  - simpl. repeat split; repeat constructor.
  - reflexivity.
  - simpl. lia.
Defined.

(** The utility's [mousemove] handler throws exactly on the profiles with
    fewer than two samples; on any other profile it reads out a sample of
    the profile. *)
Theorem utility_probe_throws_only_on_short_profile
        (x y : number -> number) (basep tan w : number) (unit : string)
        (y_invert : number -> number) (data : list SkewTMeasurement)
        (py : number) (t : DrawFunctions.tooltips) :
  (DrawFunctions.mousemove x y basep tan w unit y_invert data py t = TypeError
   <-> (List.length data < 2)%nat)
  /\ (forall t',
         DrawFunctions.mousemove x y basep tan w unit y_invert data py t = Ok t' ->
         exists d, In d data
                   /\ t' = DrawFunctions.showSample x y basep tan w unit d t).
Proof.
  unfold DrawFunctions.mousemove.
  destruct (Nat.le_gt_cases 2 (List.length data)) as [Hlen|Hlen].
  - destruct (utility_nearest_selects data (y_invert py) Hlen)
      as (i & d0 & d1 & Hi & H0 & H1 & ->).
    simpl. split.
    + split; [discriminate | lia].
    + intros t' [= <-].
      destruct (Math_abs (y_invert py - press d0)
                <? Math_abs (y_invert py - press d1));
        eexists; split; try reflexivity; eapply index_In; eassumption.
  - rewrite utility_nearest_short by assumption. simpl. split.
    + split; auto.
    + discriminate.
Qed.

Section ComponentHandlers.

Variables (Math_log Math_exp Math_tan : number -> number).
Variables (data : list SkewTMeasurement) (width height : number).
Variable (speedUnit : string).

Lemma component_handle_total
      (e : DrawFunctions.pointerEvent) (t : DrawFunctions.tooltips) :
  exists t',
    SkewT.handle Math_log Math_exp Math_tan data width height speedUnit e t
    = Ok t'.
Proof.
  destruct e as [| |py]; simpl; eauto.
  unfold SkewT.mousemove.
  destruct (component_nearest_total data (SkewT.y_invert Math_log Math_exp data height py))
    as [[d|] ->]; simpl; eauto.
Qed.

Lemma component_run_app
      (es es' : list DrawFunctions.pointerEvent) (t : DrawFunctions.tooltips) :
  SkewT.run Math_log Math_exp Math_tan data width height speedUnit (es ++ es') t
  = bind (SkewT.run Math_log Math_exp Math_tan data width height speedUnit es t)
         (SkewT.run Math_log Math_exp Math_tan data width height speedUnit es').
Proof.
  revert t. induction es as [|e es IH]; intros t; simpl; [reflexivity|].
  destruct (SkewT.handle Math_log Math_exp Math_tan data width height speedUnit e t);
    simpl; auto.
Qed.

Lemma component_run_total
      (es : list DrawFunctions.pointerEvent) (t : DrawFunctions.tooltips) :
  exists t',
    SkewT.run Math_log Math_exp Math_tan data width height speedUnit es t = Ok t'.
Proof.
  revert t. induction es as [|e es IH]; intros t; simpl; eauto.
  destruct (component_handle_total e t) as [t1 ->]. simpl. apply IH.
Qed.

End ComponentHandlers.

(** Whatever the profile, the frame and the sequence of pointer events, the
    component's listeners end without an exception; and once the pointer
    has left the overlay all four focus groups are hidden. *)
Theorem component_handlers_never_throw
        (Math_log Math_exp Math_tan : number -> number)
        (data : list SkewTMeasurement) (width height : number)
        (speedUnit : string)
        (es : list DrawFunctions.pointerEvent) (t : DrawFunctions.tooltips) :
  (exists t',
      SkewT.run Math_log Math_exp Math_tan data width height speedUnit es t
      = Ok t')
  /\ (exists t',
         SkewT.run Math_log Math_exp Math_tan data width height speedUnit
                   (es ++ [DrawFunctions.Mouseout]) t = Ok t'
         /\ allHidden t').
Proof.
  split; [apply component_run_total|].
  rewrite component_run_app.
  destruct (component_run_total Math_log Math_exp Math_tan data width height
                                speedUnit es t) as [t1 ->].
  simpl. eexists. split; [reflexivity|]. repeat split.
Qed.



Lemma skewtline_In (data : list SkewTMeasurement) (d : SkewTMeasurement) :
  In d (DrawFunctions.skewtline data)
  <-> In d data /\ DrawFunctions.definedTemp d = true
      /\ DrawFunctions.definedDwpt d = true.
Proof.
  unfold DrawFunctions.skewtline. rewrite filter_In, andb_true_iff. tauto.
Qed.




(** ** Rounding keeps the sign *)

Section Rounding.

Variables (prec emax : Z).

Lemma shr_1_nonneg (mrs : shr_record) :
  (0 <= shr_m mrs)%Z -> (0 <= shr_m (shr_1 mrs))%Z.
Proof.
  destruct mrs as [m r s]. destruct m as [|[p|p|]|[p|p|]]; simpl; lia.
Qed.

Lemma iter_pos_invariant {A} (P : A -> Prop) (f : A -> A) :
  (forall a, P a -> P (f a)) ->
  forall (n : positive) (a : A), P a -> P (iter_pos f n a).
Proof.
  intros Hf. induction n as [n IH|n IH|]; intros a Ha; simpl; auto.
Qed.

Lemma shr_fexp_nonneg (m e : Z) (l : location) :
  (0 <= m)%Z -> (0 <= shr_m (fst (shr_fexp prec emax m e l)))%Z.
Proof.
  intros Hm. unfold shr_fexp, shr.
  assert (H0 : (0 <= shr_m (shr_record_of_loc m l))%Z)
    by (destruct l as [|[]]; exact Hm).
  destruct (fexp prec emax (Zdigits2 m + e) - e)%Z; simpl; auto.
  apply (iter_pos_invariant (fun r => (0 <= shr_m r)%Z)); auto using shr_1_nonneg.
Qed.

Lemma round_nearest_even_nonneg (m : Z) (l : location) :
  (0 <= m)%Z -> (0 <= round_nearest_even m l)%Z.
Proof.
  intros Hm. destruct l as [|[]]; simpl; try lia. destruct (Z.even m); lia.
Qed.

(** Rounding a non-negative mantissa gives a zero, a finite value or an
    infinity of the sign asked for, never [NaN]. *)
Lemma binary_round_aux_sign (sx : bool) (mx ex : Z) (lx : location) :
  (0 <= mx)%Z ->
  binary_round_aux prec emax sx mx ex lx = S754_zero sx
  \/ (exists m e, binary_round_aux prec emax sx mx ex lx = S754_finite sx m e)
  \/ binary_round_aux prec emax sx mx ex lx = S754_infinity sx.
Proof.
  intros Hm. unfold binary_round_aux.
  pose proof (shr_fexp_nonneg mx ex lx Hm) as H1.
  destruct (shr_fexp prec emax mx ex lx) as [mrs' e']. simpl in H1.
  pose proof (shr_fexp_nonneg
                (round_nearest_even (shr_m mrs') (loc_of_shr_record mrs')) e'
                loc_Exact (round_nearest_even_nonneg _ _ H1)) as H2.
  destruct (shr_fexp prec emax _ e' loc_Exact) as [mrs'' e'']. simpl in H2.
  destruct (shr_m mrs'') as [|m|m]; [auto | | lia].
  destruct (e'' <=? emax - prec)%Z; eauto.
Qed.

Lemma binary_normalize_not_nan (m e : Z) (szero : bool) :
  binary_normalize prec emax m e szero <> S754_nan.
Proof.
  unfold binary_normalize, binary_round.
  destruct m as [|m|m]; [discriminate | |];
    destruct (shl_align _ _ _) as [mz ez];
    match goal with
    | |- binary_round_aux _ _ ?s ?mm ?ee ?ll <> _ =>
        destruct (binary_round_aux_sign s mm ee ll ltac:(lia))
          as [->|[(m' & e' & ->)| ->]]; discriminate
    end.
Qed.

End Rounding.

Lemma is_nan_true (v : number) : is_nan v = true <-> Prim2SF v = S754_nan.
Proof.
  destruct (is_nan v) eqn:E.
  - split; [intros _ | reflexivity].
    destruct (Prim2SF v) eqn:P; try reflexivity;
      assert (N : is_nan v = false) by (apply is_nan_false; congruence);
      congruence.
  - apply is_nan_false in E. split; [discriminate | contradiction].
Qed.

(** Subtracting a finite number keeps a number a number. *)
Lemma sub_finite_nan (a c : number) :
  is_finite c = true -> is_nan (a - c) = is_nan a.
Proof.
  intros Hc.
  assert (G : Prim2SF (a - c) = S754_nan <-> Prim2SF a = S754_nan).
  { rewrite FloatAxioms.sub_spec. unfold SF64sub.
    destruct (finite_cases c Hc) as [[s ->]|(s & m & e & ->)];
      destruct (Prim2SF a) as [sa|sa| |sa ma ea]; unfold SFsub;
      cbv beta iota;
      repeat match goal with b : bool |- _ => destruct b end; cbv beta iota;
      try (split; congruence).
    all: split; [intros H; exfalso; revert H; apply binary_normalize_not_nan
                | discriminate]. }
  destruct (is_nan a) eqn:Ea.
  - apply is_nan_true. apply G. now apply is_nan_true.
  - apply is_nan_false. intros H. apply G in H. apply is_nan_true in H. congruence.
Qed.

(** The shape of a product by a positive finite constant. *)
Lemma mul_positive_constant (v c : number) (mc : positive) (ec : Z) :
  Prim2SF c = S754_finite false mc ec ->
  match Prim2SF v with
  | S754_nan => Prim2SF (v * c) = S754_nan
  | S754_zero s => Prim2SF (v * c) = S754_zero s
  | S754_infinity s => Prim2SF (v * c) = S754_infinity s
  | S754_finite s _ _ =>
      Prim2SF (v * c) = S754_zero s
      \/ (exists m e, Prim2SF (v * c) = S754_finite s m e)
      \/ Prim2SF (v * c) = S754_infinity s
  end.
Proof.
  intros Hc. rewrite FloatAxioms.mul_spec. unfold SF64mul. rewrite Hc.
  destruct (Prim2SF v) as [s|s| |s m e]; simpl; rewrite ?xorb_false_r; auto.
  apply binary_round_aux_sign. lia.
Qed.

Lemma mul_positive_constant_sign (v c : number) (mc : positive) (ec : Z) :
  Prim2SF c = S754_finite false mc ec ->
  is_nan (v * c) = is_nan v
  /\ ((0 <=? v) = true -> (0 <=? v * c) = true)
  /\ ((v <=? 0) = true -> (v * c <=? 0) = true).
Proof.
  intros Hc. pose proof (mul_positive_constant v c mc ec Hc) as H.
  split; [|split].
  - destruct (is_nan v) eqn:E.
    + apply is_nan_true in E. rewrite E in H. now apply is_nan_true.
    + apply is_nan_false in E. apply is_nan_false.
      destruct (Prim2SF v) as [s|s| |s m e]; try congruence.
      destruct H as [->|[(m' & e' & ->)| ->]]; discriminate.
  - rewrite !FloatAxioms.leb_spec.
    change (Prim2SF 0) with (S754_zero false).
    destruct (Prim2SF v) as [s|s| |s m e]; try (rewrite H; auto; fail).
    destruct H as [->|[(m' & e' & ->)| ->]]; destruct s; auto.
  - rewrite !FloatAxioms.leb_spec.
    change (Prim2SF 0) with (S754_zero false).
    destruct (Prim2SF v) as [s|s| |s m e]; try (rewrite H; auto; fail).
    destruct H as [->|[(m' & e' & ->)| ->]]; destruct s; auto.
Qed.

(** ** Unit conversion, further *)

(** Whatever the unit, the conversion turns a number into a number and
    never changes its sign: [NaN] comes out only for [NaN], a speed that
    is not negative is converted to one that is not negative, and
    likewise for a speed that is not positive; the component's own copy
    behaves the same. *)
Theorem convertWindSpeed_keeps_sign (v : number) (unit : string) :
  is_nan (Conversions.convertWindSpeed v unit) = is_nan v
  /\ ((0 <=? v) = true -> (0 <=? Conversions.convertWindSpeed v unit) = true)
  /\ ((v <=? 0) = true -> (Conversions.convertWindSpeed v unit <=? 0) = true)
  /\ is_nan (SkewT.convertWindSpeed v unit) = is_nan v
  /\ ((0 <=? v) = true -> (0 <=? SkewT.convertWindSpeed v unit) = true).
Proof.
  assert (G : is_nan (Conversions.convertWindSpeed v unit) = is_nan v
              /\ ((0 <=? v) = true ->
                  (0 <=? Conversions.convertWindSpeed v unit) = true)
              /\ ((v <=? 0) = true ->
                  (Conversions.convertWindSpeed v unit <=? 0) = true)).
  { destruct (string_dec unit "kt") as [->|Hkt].
    - eapply (mul_positive_constant_sign v 1.943844492). vm_compute. reflexivity.
    - destruct (string_dec unit "kmh") as [->|Hkmh].
      + eapply (mul_positive_constant_sign v 3.6). vm_compute. reflexivity.
      + rewrite convertWindSpeed_default by assumption. auto. }
  destruct G as (G1 & G2 & G3).
  exact (conj G1 (conj G2 (conj G3 (conj G1 G2)))).
Qed.

(** ** Top pressure, further *)

Lemma is_nan_eq (v : number) : is_nan v = true -> v = nan.
Proof.
  intros H. apply is_nan_true in H. apply Prim2SF_inj. rewrite H. reflexivity.
Qed.

Lemma ltb_nan_r (a b : number) : is_nan b = true -> (a <? b) = false.
Proof.
  intros H. apply is_nan_true in H.
  rewrite FloatAxioms.ltb_spec. unfold SFltb. rewrite H.
  now destruct (Prim2SF a).
Qed.

Lemma ltb_not_nan (a b : number) :
  (a <? b) = true -> is_nan a = false /\ is_nan b = false.
Proof. intros H. apply leb_not_nan. now apply ltb_leb. Qed.

(** A [NaN] minimum stays: no pressure compares below it. *)
Lemma fold_min_nan (l : list SkewTMeasurement) (m0 : number) :
  is_nan m0 = true ->
  is_nan (fold_left (fun min current =>
                       if press current <? min then press current else min)
                    l m0) = true.
Proof.
  revert m0. induction l as [|d l IH]; intros m0 H; simpl; [exact H|].
  rewrite ltb_nan_r by exact H. now apply IH.
Qed.

(** From a minimum that is a number on, a [NaN] pressure is passed over:
    the result is the least of the minimum and of the pressures that are
    numbers. *)
Lemma fold_min_skips_nan (l : list SkewTMeasurement) (m0 : number) :
  is_nan m0 = false ->
  let m := fold_left (fun min current =>
                        if press current <? min then press current else min)
                     l m0 in
  is_nan m = false
  /\ (m = m0 \/ In m (map press l))
  /\ (m <=? m0) = true
  /\ (forall d, In d l -> is_nan (press d) = false -> (m <=? press d) = true).
Proof.
  revert m0. induction l as [|d l IH]; intros m0 Hm0; simpl.
  - repeat split; auto using leb_refl.
  - destruct (press d <? m0) eqn:E.
    + destruct (ltb_not_nan _ _ E) as [Hd _].
      destruct (IH (press d) Hd) as (Hn & Hin & Hle & Hall).
      repeat split; auto.
      * destruct Hin as [->|Hin]; auto.
      * eapply leb_trans; [exact Hle | now apply ltb_leb].
      * intros d' [<-|Hd'] Hnan; auto.
    + destruct (IH m0 Hm0) as (Hn & Hin & Hle & Hall).
      repeat split; auto.
      * destruct Hin as [->|Hin]; auto.
      * intros d' [<-|Hd'] Hnan; auto.
        eapply leb_trans; [exact Hle | now apply nltb_leb].
Qed.

(** [getSmallestPressureValue] and pressures that are [NaN].  When the
    first pressure is [NaN] the result is [NaN], whatever follows.  When
    it is a number, the [NaN] pressures after it are passed over: the
    result is a pressure of the profile, a number, and no pressure of the
    profile that is a number lies below it. *)
Theorem smallest_pressure_and_NaN
        (m0 : SkewTMeasurement) (l : list SkewTMeasurement) :
  (is_nan (press m0) = true ->
   is_nan (DrawFunctions.getSmallestPressureValue (Some (m0 :: l))) = true)
  /\ (is_nan (press m0) = false ->
      is_nan (DrawFunctions.getSmallestPressureValue (Some (m0 :: l))) = false
      /\ In (DrawFunctions.getSmallestPressureValue (Some (m0 :: l)))
            (map press (m0 :: l))
      /\ forall d, In d (m0 :: l) -> is_nan (press d) = false ->
                   (DrawFunctions.getSmallestPressureValue (Some (m0 :: l))
                    <=? press d) = true).
Proof.
  unfold DrawFunctions.getSmallestPressureValue. split; intros H0.
  - now apply fold_min_nan.
  - destruct (fold_min_skips_nan (m0 :: l) (press m0) H0) as (Hn & Hin & _ & Hall).
    split; [exact Hn|]. split; [|exact Hall].
    destruct Hin as [->|Hin]; [now left | exact Hin].
Qed.

Lemma smallest_pressure_nan (data : list SkewTMeasurement) :
  is_nan (DrawFunctions.getSmallestPressureValue (Some data)) = true
  <-> exists m0 l, data = m0 :: l /\ is_nan (press m0) = true.
Proof.
  destruct data as [|m0 l].
  - split; [discriminate | intros (? & ? & ? & _); discriminate].
  - unfold DrawFunctions.getSmallestPressureValue. split.
    + intros H. exists m0, l. split; [reflexivity|].
      destruct (is_nan (press m0)) eqn:E; [reflexivity|].
      destruct (fold_min_skips_nan (m0 :: l) (press m0) E) as (Hn & _).
      congruence.
    + intros (m & l' & [= <- <-] & H). now apply fold_min_nan.
Qed.

Lemma Math_max_50 (v : number) :
  is_nan (Math_max 50 v) = is_nan v
  /\ (is_nan v = false -> (50 <=? Math_max 50 v) = true).
Proof.
  unfold Math_max. change (is_nan 50) with false. simpl orb.
  destruct (is_nan v) eqn:E.
  - split; [reflexivity | discriminate].
  - destruct (50 <? v) eqn:L1.
    + split; [exact E | intros _; now apply ltb_leb].
    + destruct (v <? 50) eqn:L2; [split; reflexivity|].
      change (get_sign 50) with false. cbv iota. split; reflexivity.
Qed.

Lemma top_pressure_floor_nan (data : list SkewTMeasurement) :
  is_nan (SkewT.topp data) = true
  <-> exists m0 l, data = m0 :: l /\ is_nan (press m0) = true.
Proof.
  unfold SkewT.topp.
  destruct (Math_max_50 (DrawFunctions.getSmallestPressureValue (Some data) - 10))
    as [Hn _].
  rewrite sub_finite_nan in Hn by reflexivity.
  rewrite Hn. apply smallest_pressure_nan.
Qed.

(** The component's top pressure is never below 50 hPa: it is [NaN]
    exactly when the first pressure of the profile is [NaN], and a number
    that is at least 50 otherwise. *)
Theorem top_pressure_floor (data : list SkewTMeasurement) :
  (is_nan (SkewT.topp data) = true
   <-> exists m0 l, data = m0 :: l /\ is_nan (press m0) = true)
  /\ (is_nan (SkewT.topp data) = false -> (50 <=? SkewT.topp data) = true).
Proof.
  split; [apply top_pressure_floor_nan|].
  unfold SkewT.topp.
  destruct (Math_max_50 (DrawFunctions.getSmallestPressureValue (Some data) - 10))
    as [Hn Hle].
  rewrite Hn. exact Hle.
Qed.

(** A first pressure that is [NaN] leaves the component without dry
    adiabats: the top pressure is [NaN], the grid of pressures the dry
    adiabats are sampled on is empty, and each of the 14 paths is empty. *)
Theorem nan_first_pressure_blanks_dry_adiabats
        (Math_log Math_tan : number -> number)
        (Math_pow : number -> number -> number)
        (m0 : SkewTMeasurement) (l : list SkewTMeasurement)
        (width height : number) :
  is_nan (press m0) = true ->
  SkewT.topp (m0 :: l) = nan
  /\ SkewT.pp (m0 :: l) = []
  /\ SkewT.dryadiabats Math_log Math_tan Math_pow (m0 :: l) width height
     = repeat [] 14.
Proof.
  intros H.
  assert (Ht : SkewT.topp (m0 :: l) = nan).
  { apply is_nan_eq. apply top_pressure_floor_nan. eauto. }
  assert (Hp : SkewT.pp (m0 :: l) = []).
  { unfold SkewT.pp. rewrite Ht. reflexivity. }
  split; [exact Ht|]. split; [exact Hp|].
  unfold SkewT.dryadiabats, SkewT.all. rewrite Hp. reflexivity.
Qed.

Lemma nan_first_pressure_blanks_dry_adiabats_witness :
  SkewT.topp [level nan 25 20] = nan
  /\ SkewT.pp [level nan 25 20] = []
  /\ SkewT.dryadiabats Engine.log (fun _ => tan55) Engine.pow
                       [level nan 25 20] 750 620
     = repeat [] 14.
Proof.
  apply (nan_first_pressure_blanks_dry_adiabats
           Engine.log (fun _ => tan55) Engine.pow (level nan 25 20) [] 750 620).
  reflexivity.
Defined.

(** ** The line generator, further *)

Section LineGeneratorGaps.

Context {A : Type} (defined : A -> bool) (pt : A -> number * number).

Lemma consecutive_snoc (p q : number * number) (l : list (number * number))
      (c : number * number) :
  consecutive p q (l ++ [c])%list ->
  consecutive p q l \/ (exists l', l = (l' ++ [p])%list) /\ q = c.
Proof.
  intros (pre & post & E). destruct post as [|z post'].
  - right.
    change (pre ++ [p; q])%list with (pre ++ [p] ++ [q])%list in E.
    rewrite app_assoc in E. apply app_inj_tail in E. destruct E as [-> ->].
    eauto.
  - left.
    destruct (@exists_last _ (z :: post')) as (post'' & z' & Hz);
      [discriminate|].
    rewrite Hz in E.
    change (pre ++ p :: q :: post'' ++ [z'])%list
      with (pre ++ (p :: q :: post'') ++ [z'])%list in E.
    rewrite app_assoc in E. apply app_inj_tail in E. destruct E as [-> _].
    exists pre, post''. reflexivity.
Qed.

(** Two points that follow each other in a sub-path were open in the
    line already, or are the last open point and the first datum, or
    come from two data that follow each other and are both defined. *)
Lemma line_loop_consecutive (data : list A) (defined0 : bool)
      (cur sub : list (number * number)) (p q : number * number) :
  In sub (D3.line_loop defined pt data defined0 cur) ->
  consecutive p q sub ->
  (defined0 = true /\ consecutive p q (rev cur))
  \/ (defined0 = true
      /\ (exists cur', cur = p :: cur')
      /\ exists a rest, data = a :: rest /\ defined a = true /\ q = pt a)
  \/ (exists a b, consecutive a b data /\ defined a = true /\ defined b = true
                  /\ p = pt a /\ q = pt b).
Proof.
  revert defined0 cur. induction data as [|d rest IH]; intros defined0 cur Hsub Hc.
  - simpl in Hsub. destruct defined0; [|destruct Hsub].
    destruct Hsub as [<-|[]]. auto.
  - simpl in Hsub. destruct (defined d) eqn:Ed.
    + destruct (IH _ _ Hsub Hc) as [[_ H]|[(_ & (cur' & Hcur) & a & rest' & -> & Ha & ->)
                                         |(a & b & (pre & post & ->) & Ha & Hb & -> & ->)]].
      * simpl in H. apply consecutive_snoc in H.
        destruct H as [H|[(l' & Hl') ->]].
        -- destruct defined0; [auto|]. destruct H as (pre & post & E).
           destruct pre; discriminate.
        -- destruct defined0; [|destruct l'; discriminate].
           right. left. split; [reflexivity|]. split; [|eauto].
           exists (rev l'). rewrite <- (rev_involutive cur), Hl', rev_app_distr.
           reflexivity.
      * injection Hcur as <- _.
        right. right. exists d, a. split; [|auto]. exists [], rest'. reflexivity.
      * right. right. exists a, b. split; [|auto].
        exists (d :: pre), post. reflexivity.
    + assert (G : In sub (D3.line_loop defined pt rest false []) ->
                  exists a b, consecutive a b (d :: rest) /\ defined a = true
                              /\ defined b = true /\ p = pt a /\ q = pt b).
      { intros Hs.
        destruct (IH _ _ Hs Hc) as [[H _]|[(H & _)
                                          |(a & b & (pre & post & ->) & Hab)]];
          try discriminate.
        exists a, b. split; [|exact Hab]. exists (d :: pre), post. reflexivity. }
      destruct defined0.
      * destruct Hsub as [<-|Hs]; auto.
      * auto.
Qed.

End LineGeneratorGaps.

Section LineGeneratorShape.

Context {A : Type} (defined : A -> bool) (pt : A -> number * number).

(** The points of the sub-paths, in order, are the points of the defined
    data, after those that were open. *)
Lemma line_loop_concat (data : list A) (defined0 : bool)
      (cur : list (number * number)) :
  List.concat (D3.line_loop defined pt data defined0 cur)
  = ((if defined0 then rev cur else []) ++ map pt (filter defined data))%list.
Proof.
  revert defined0 cur. induction data as [|d rest IH]; intros defined0 cur; simpl.
  - destruct defined0; simpl; now rewrite ?app_nil_r.
  - destruct (defined d).
    + rewrite IH. simpl. destruct defined0; simpl; now rewrite <- ?app_assoc.
    + destruct defined0; simpl; now rewrite IH.
Qed.

(** No sub-path is empty. *)
Lemma line_loop_nonempty (data : list A) (defined0 : bool)
      (cur : list (number * number)) :
  (defined0 = true -> cur <> []) ->
  Forall (fun sub => sub <> []) (D3.line_loop defined pt data defined0 cur).
Proof.
  assert (R : forall l : list (number * number), l <> [] -> rev l <> []).
  { intros l Hl E. apply Hl. rewrite <- (rev_involutive l), E. reflexivity. }
  revert defined0 cur. induction data as [|d rest IH]; intros defined0 cur Hc; simpl.
  - destruct defined0; repeat constructor. auto.
  - destruct (defined d).
    + apply IH. discriminate.
    + destruct defined0; [constructor; auto|]; apply IH; discriminate.
Qed.

Lemma line_consecutive (x y : A -> number) (data : list A)
      (p q : number * number) :
  joined p q (D3.line x y defined data) ->
  exists a b, consecutive a b data /\ defined a = true /\ defined b = true
              /\ p = (x a, y a) /\ q = (x b, y b).
Proof.
  intros (sub & pre & post & Hsub & E). unfold D3.line in Hsub.
  destruct (line_loop_consecutive defined _ data false [] sub p q Hsub)
    as [[H _]|[(H & _)|H]]; try discriminate; [|exact H].
  exists pre, post. exact E.
Qed.

End LineGeneratorShape.

(** The line generators of [drawTempDewLines], applied to a profile that
    was not filtered first, break the line at every sample whose value is
    undefined: the points drawn are those of the samples with a defined
    value, in order; no sub-path is empty; and two points are joined by a
    segment only when they come from two samples that follow each other
    in the profile, both with a defined value. *)
Theorem line_generator_breaks_at_gaps
        (x y : number -> number) (basep tan : number)
        (l : list SkewTMeasurement) :
  (List.concat (DrawFunctions.templine x y basep tan l)
   = map (tempPoint x y basep tan) (filter DrawFunctions.definedTemp l)
   /\ Forall (fun sub => sub <> []) (DrawFunctions.templine x y basep tan l)
   /\ forall p q,
       joined p q (DrawFunctions.templine x y basep tan l) ->
       exists a b, consecutive a b l
                   /\ DrawFunctions.definedTemp a = true
                   /\ DrawFunctions.definedTemp b = true
                   /\ p = tempPoint x y basep tan a
                   /\ q = tempPoint x y basep tan b)
  /\ (List.concat (DrawFunctions.dewpointline x y basep tan l)
      = map (dewPoint x y basep tan) (filter DrawFunctions.definedDwpt l)
      /\ Forall (fun sub => sub <> []) (DrawFunctions.dewpointline x y basep tan l)
      /\ forall p q,
          joined p q (DrawFunctions.dewpointline x y basep tan l) ->
          exists a b, consecutive a b l
                      /\ DrawFunctions.definedDwpt a = true
                      /\ DrawFunctions.definedDwpt b = true
                      /\ p = dewPoint x y basep tan a
                      /\ q = dewPoint x y basep tan b).
Proof.
  unfold DrawFunctions.templine, DrawFunctions.dewpointline.
  split; (split; [|split]).
  - unfold D3.line. now rewrite line_loop_concat.
  - apply line_loop_nonempty. discriminate.
  - intros p q. apply line_consecutive.
  - unfold D3.line. now rewrite line_loop_concat.
  - apply line_loop_nonempty. discriminate.
  - intros p q. apply line_consecutive.
Qed.

(** ** Wind barbs, further *)

Lemma component_barbUse (Math_log : number -> number)
      (data : list SkewTMeasurement) (width height : number)
      (d : SkewTMeasurement) :
  SkewT.validWind data d = true ->
  SkewT.barbUse Math_log data width height d
  = WindBarbs.barbUse (SkewT.w width) (SkewT.y Math_log data height) d.
Proof.
  unfold SkewT.validWind, SkewT.barbUse, WindBarbs.barbUse, WindBarbs.kts,
    isNumberAnd.
  destruct (wdir d), (wspd d); simpl; try discriminate;
    rewrite ?andb_false_r; try discriminate.
  reflexivity.
Qed.

Lemma component_validWind (data : list SkewTMeasurement) (d : SkewTMeasurement) :
  SkewT.validWind data d = WindBarbs.validWind (SkewT.topp data) d.
Proof.
  unfold SkewT.validWind, WindBarbs.validWind, isNumberAnd.
  destruct (wdir d), (wspd d); simpl; rewrite ?andb_false_r; reflexivity.
Qed.

(** The wind barbs of the component are the wind barbs [drawWindBarbs]
    places for the samples kept for the profile lines, over the
    component's frame; each of them is among the barbs [drawWindBarbs]
    places for the whole profile. *)
Theorem component_barbs_are_utility_barbs
        (Math_log : number -> number)
        (data : list SkewTMeasurement) (width height : number) :
  SkewT.drawBarbs Math_log data width height
  = WindBarbs.drawWindBarbs (SkewT.topp data) (SkewT.w width)
                            (SkewT.y Math_log data height)
                            (DrawFunctions.skewtline data)
  /\ incl (SkewT.drawBarbs Math_log data width height)
          (WindBarbs.drawWindBarbs (SkewT.topp data) (SkewT.w width)
                                   (SkewT.y Math_log data height) data).
Proof.
  assert (E : SkewT.drawBarbs Math_log data width height
              = WindBarbs.drawWindBarbs (SkewT.topp data) (SkewT.w width)
                  (SkewT.y Math_log data height) (DrawFunctions.skewtline data)).
  { unfold SkewT.drawBarbs, SkewT.barbs, WindBarbs.drawWindBarbs.
    change (SkewT.skewtline data) with (DrawFunctions.skewtline data).
    rewrite (filter_ext _ _ (component_validWind data)).
    apply map_ext_in. intros d Hd. apply filter_In in Hd.
    apply component_barbUse. rewrite component_validWind. apply Hd. }
  split; [exact E|].
  rewrite E. unfold WindBarbs.drawWindBarbs. intros u Hu.
  apply in_map_iff in Hu. destruct Hu as (d & <- & Hd).
  apply in_map. apply filter_In in Hd. apply filter_In. split; [|apply Hd].
  destruct Hd as [Hd _]. apply skewtline_In in Hd. apply Hd.
Qed.

Lemma bucket_cases (b : Z) (P : Z -> Prop) :
  In b buckets ->
  Forall P buckets -> P b.
Proof. intros Hb HP. rewrite Forall_forall in HP. auto. Qed.

Lemma buckets_resolve (barbsize : number) :
  Forall (fun b => Prim2SF (ofZ b) <> S754_nan
                   /\ (exists s m e, Prim2SF (ofZ b) = S754_finite s m e)
                   /\ forall u, href u = concatNumber "#barb" (ofZ b) ->
                                resolve (map (specGlyph barbsize) buckets) u
                                = Some (specGlyph barbsize b))
         buckets.
Proof.
  repeat constructor; try discriminate;
    try (vm_compute; eexists _, _, _; reflexivity);
    intros u Hu; unfold resolve; rewrite Hu; vm_compute; reflexivity.
Qed.

(** The reference of a wind barb finds a glyph exactly when the speed in
    knots, rounded to the nearest 5, is one of 5, 10, ..., 100; the glyph
    found is then the glyph of that speed. *)
Theorem barb_reference_found_iff_bucket
        (barbsize w : number) (y : number -> number) (defs : list glyph)
        (d : SkewTMeasurement) :
  WindBarbs.makeWindbarbs barbsize = Some defs ->
  (resolve defs (WindBarbs.barbUse w y d) <> None
   <-> isBucket (WindBarbs.kts d) = true)
  /\ (forall g, resolve defs (WindBarbs.barbUse w y d) = Some g ->
                exists b, In b buckets /\ WindBarbs.kts d = ofZ b
                          /\ g = specGlyph barbsize b).
Proof.
  rewrite makeWindbarbs_spec. intros Hdefs.
  assert (defs = map (specGlyph barbsize) buckets) by congruence.
  subst defs. clear Hdefs.
  assert (F : forall g,
             resolve (map (specGlyph barbsize) buckets) (WindBarbs.barbUse w y d)
             = Some g ->
             exists b, In b buckets /\ WindBarbs.kts d = ofZ b
                       /\ g = specGlyph barbsize b).
  { intros g Hg.
    destruct (resolve_bucket barbsize (WindBarbs.kts d)
                             (WindBarbs.barbUse w y d) g eq_refl Hg)
      as (b & Hb & He).
    pose proof (bucket_cases b _ Hb (buckets_resolve barbsize))
      as (_ & (s & m & e & Hf) & Hr).
    assert (Hk : WindBarbs.kts d = ofZ b).
    { rewrite eqb_sym in He. exact (eqb_finite_eq _ _ s m e Hf He). }
    exists b. split; [exact Hb|]. split; [exact Hk|].
    rewrite (Hr (WindBarbs.barbUse w y d)) in Hg.
    - now injection Hg.
    - simpl. now rewrite Hk. }
  split; [|exact F]. split.
  - intros H.
    destruct (resolve _ _) as [g|] eqn:Hg; [|congruence].
    destruct (F g eq_refl) as (b & Hb & Hk & _).
    unfold isBucket. apply existsb_exists. exists b. split; [exact Hb|].
    rewrite Hk.
    pose proof (bucket_cases b _ Hb (buckets_resolve barbsize)) as (Hn & _).
    rewrite FloatAxioms.eqb_spec. unfold SFeqb. now rewrite SFcompare_refl.
  - unfold isBucket. intros H. apply existsb_exists in H.
    destruct H as (b & Hb & He).
    pose proof (bucket_cases b _ Hb (buckets_resolve barbsize))
      as (_ & (s & m & e & Hf) & Hr).
    assert (Hk : WindBarbs.kts d = ofZ b).
    { rewrite eqb_sym in He. exact (eqb_finite_eq _ _ s m e Hf He). }
    rewrite (Hr (WindBarbs.barbUse w y d)); [discriminate|].
    simpl. now rewrite Hk.
Qed.

Lemma barb_reference_found_iff_bucket_witness :
  (resolve (map (specGlyph 25) buckets)
           (WindBarbs.barbUse 680 chartY (windOnly 850 220 12)) <> None
   <-> isBucket (WindBarbs.kts (windOnly 850 220 12)) = true)
  /\ (forall g,
         resolve (map (specGlyph 25) buckets)
                 (WindBarbs.barbUse 680 chartY (windOnly 850 220 12)) = Some g ->
         exists b, In b buckets /\ WindBarbs.kts (windOnly 850 220 12) = ofZ b
                   /\ g = specGlyph 25 b).
Proof.
  apply (barb_reference_found_iff_bucket
           25 680 chartY (map (specGlyph 25) buckets) (windOnly 850 220 12)).
  vm_compute. reflexivity.
Defined.

(** Every glyph shows the speed it is named after, whatever the barb
    size: read as a wind barb (50 for a flag, 10 for a pennant, 5 for a
    half-pennant) the glyphs show 5, 10, ..., 100 in this order, the id
    of each is [barb] followed by the speed it shows, and a glyph holds
    one stem and nothing but its stem, flags, pennants and
    half-pennants. *)
Theorem glyph_shows_its_speed (barbsize : number) (defs : list glyph) :
  WindBarbs.makeWindbarbs barbsize = Some defs ->
  map speedShown defs = buckets
  /\ Forall (fun g => glyphId g = Some ("barb" ++ decimal (speedShown g))) defs
  /\ Forall (fun g => count isStem g = 1%Z
                      /\ Z.of_nat (List.length (shapes g))
                         = (1 + count isFlag g + count isPennant g
                            + count isHalfPennant g)%Z) defs.
Proof.
  rewrite makeWindbarbs_spec. intros Hdefs.
  assert (defs = map (specGlyph barbsize) buckets) by congruence.
  subst defs. clear Hdefs.
  split; [vm_compute; reflexivity|].
  split; repeat constructor.
Qed.

Lemma glyph_shows_its_speed_witness :
  map speedShown (map (specGlyph 25) buckets) = buckets
  /\ Forall (fun g => glyphId g = Some ("barb" ++ decimal (speedShown g)))
            (map (specGlyph 25) buckets)
  /\ Forall (fun g => count isStem g = 1%Z
                      /\ Z.of_nat (List.length (shapes g))
                         = (1 + count isFlag g + count isPennant g
                            + count isHalfPennant g)%Z)
            (map (specGlyph 25) buckets).
Proof.
  apply (glyph_shows_its_speed 25 (map (specGlyph 25) buckets)).
  vm_compute. reflexivity.
Defined.

(** ** The background grid *)

(** The isotherms of the background are those of -100, -90, ..., 40
    degrees, whatever the frame: each runs over the full height of the
    plot, its bottom end half a pixel left of [x] of its temperature,
    and the isotherm of 0 degrees alone has the class [tempzero].  The
    isobars are horizontal, from the left edge to the right edge, one
    for each pressure line in order.  The background the component draws
    inline is the one [drawBackground] draws over the component's frame. *)
Theorem background_grid
        (x y : number -> number) (basep tan : number)
        (Math_pow : number -> number -> number)
        (w h : number) (plines : list number) (topp : number) :
  map lineClass
      (DrawFunctions.bgTemplines
         (DrawFunctions.drawBackground x y basep tan Math_pow w h plines topp))
  = (repeat "gridline" 10 ++ "tempzero" :: repeat "gridline" 4)%list
  /\ map (fun l => (x2 l, y1 l, y2 l))
         (DrawFunctions.bgTemplines
            (DrawFunctions.drawBackground x y basep tan Math_pow w h plines topp))
     = map (fun t => (x t - 0.5, 0, h))
           [-100; -90; -80; -70; -60; -50; -40; -30; -20; -10; 0; 10; 20; 30; 40]
  /\ map (fun l => (x1 l, x2 l, lineClass l))
         (DrawFunctions.bgPressurelines
            (DrawFunctions.drawBackground x y basep tan Math_pow w h plines topp))
     = map (fun _ => (0, w, "gridline")) plines
  /\ map (fun l => (y1 l, y2 l))
         (DrawFunctions.bgPressurelines
            (DrawFunctions.drawBackground x y basep tan Math_pow w h plines topp))
     = map (fun p => (y p, y p)) plines
  /\ (forall Math_log Math_tan data width height,
         SkewT.drawBackground Math_log Math_tan Math_pow data width height
         = DrawFunctions.drawBackground
             (SkewT.x width) (SkewT.y Math_log data height) SkewT.basep
             (SkewT.tan Math_tan) Math_pow (SkewT.w width) (SkewT.h height)
             Constants.STANDARD_PRESSURE_LINES (SkewT.topp data)).
Proof.
  split; [reflexivity|]. split; [reflexivity|].
  unfold DrawFunctions.drawBackground, DrawFunctions.pressurelines. simpl.
  rewrite !map_map. split; [reflexivity|]. split; [reflexivity|].
  intros. unfold SkewT.drawBackground. f_equal.
Qed.

Lemma onePath_map {A B} (f : A -> B) (pt : B -> number * number) (l : list A) :
  onePath pt (map f l) = onePath (fun a => pt (f a)) l.
Proof. destruct l; simpl; [reflexivity|]. now rewrite map_map. Qed.

(** The dry adiabats are those of -30, -10, ..., 230 degrees; each is one
    undivided sub-path (none when the pressure grid is empty) with a
    point for every pressure of the grid from the top pressure to the
    base pressure in steps of 10, so that all are sampled at the same
    heights; the component draws the same paths over its own frame. *)
Theorem dry_adiabats_share_the_pressure_grid
        (x y : number -> number) (basep tan : number)
        (Math_pow : number -> number -> number) (topp : number) :
  DrawFunctions.dryadiabats x y basep tan Math_pow topp
  = map (fun theta =>
           onePath (fun p => (DrawFunctions.drylineX x y basep tan Math_pow
                                                     (theta, p), y p))
                   (D3.range topp (basep + 1) 10))
        [-30; -10; 10; 30; 50; 70; 90; 110; 130; 150; 170; 190; 210; 230]
  /\ (forall path sub,
         In path (DrawFunctions.dryadiabats x y basep tan Math_pow topp) ->
         In sub path ->
         path = [sub] /\ map snd sub = map y (D3.range topp (basep + 1) 10))
  /\ (forall Math_log Math_tan data width height,
         SkewT.dryadiabats Math_log Math_tan Math_pow data width height
         = DrawFunctions.dryadiabats (SkewT.x width)
             (SkewT.y Math_log data height) SkewT.basep (SkewT.tan Math_tan)
             Math_pow (SkewT.topp data)).
Proof.
  assert (E : DrawFunctions.dryadiabats x y basep tan Math_pow topp
              = map (fun theta =>
                       onePath (fun p => (DrawFunctions.drylineX x y basep tan
                                            Math_pow (theta, p), y p))
                               (D3.range topp (basep + 1) 10))
                    [-30; -10; 10; 30; 50; 70; 90; 110; 130; 150; 170; 190;
                     210; 230]).
  { unfold DrawFunctions.dryadiabats, DrawFunctions.all, DrawFunctions.dryline,
      DrawFunctions.pp, D3.line.
    rewrite map_map.
    change (DrawFunctions.dryad) with
      [-30; -10; 10; 30; 50; 70; 90; 110; 130; 150; 170; 190; 210; 230].
    apply map_ext. intros theta.
    rewrite (line_loop_all_defined (fun _ => true)) by (apply Forall_forall; auto).
    now rewrite onePath_map. }
  split; [exact E|]. split.
  - rewrite E. intros path sub Hp Hs. apply in_map_iff in Hp.
    destruct Hp as (theta & <- & _).
    destruct (D3.range topp (basep + 1) 10) as [|p0 ps]; [destruct Hs|].
    destruct Hs as [<-|[]]. split; [reflexivity|].
    simpl. f_equal. now rewrite map_map.
  - intros. apply component_geometry.
Qed.

(** ** [normalizeString] *)

Lemma trimStart_split (s : Conversions.codeUnits) :
  exists pre, s = (pre ++ Conversions.trimStart s)%list
              /\ Forall (fun c => Conversions.isWhiteSpace c = true) pre.
Proof.
  induction s as [|c s (pre & E & F)]; simpl.
  - exists []. auto.
  - destruct (Conversions.isWhiteSpace c) eqn:W.
    + exists (c :: pre). split; [simpl; now f_equal | now constructor].
    + exists []. auto.
Qed.

Lemma trimStart_head (s : Conversions.codeUnits) :
  match Conversions.trimStart s with
  | [] => True
  | c :: _ => Conversions.isWhiteSpace c = false
  end.
Proof.
  induction s as [|c s IH]; simpl; [exact I|].
  destruct (Conversions.isWhiteSpace c) eqn:W; [exact IH | exact W].
Qed.

Lemma trimStart_fixed (s : Conversions.codeUnits) :
  match s with
  | [] => True
  | c :: _ => Conversions.isWhiteSpace c = false
  end ->
  Conversions.trimStart s = s.
Proof. destruct s as [|c s]; simpl; [reflexivity|]. now intros ->. Qed.

Lemma trimEnd_split (s : Conversions.codeUnits) :
  exists post, s = (Conversions.trimEnd s ++ post)%list
               /\ Forall (fun c => Conversions.isWhiteSpace c = true) post.
Proof.
  unfold Conversions.trimEnd.
  destruct (trimStart_split (rev s)) as (pre & E & F).
  exists (rev pre). split.
  - rewrite <- rev_app_distr, <- E. now rewrite rev_involutive.
  - apply Forall_forall. intros c Hc. apply in_rev in Hc.
    rewrite Forall_forall in F. now apply F.
Qed.

Lemma trim_ends (s : Conversions.codeUnits) :
  match Conversions.trim s with
  | [] => True
  | c :: _ => Conversions.isWhiteSpace c = false
  end
  /\ match rev (Conversions.trim s) with
     | [] => True
     | c :: _ => Conversions.isWhiteSpace c = false
     end.
Proof.
  unfold Conversions.trim. split.
  - pose proof (trimStart_head s) as H.
    destruct (trimEnd_split (Conversions.trimStart s)) as (post & E & _).
    destruct (Conversions.trimEnd (Conversions.trimStart s)) as [|c r];
      [exact I|].
    rewrite E in H. exact H.
  - unfold Conversions.trimEnd. rewrite rev_involutive. apply trimStart_head.
Qed.

Lemma trim_fixed (s : Conversions.codeUnits) :
  match s with
  | [] => True
  | c :: _ => Conversions.isWhiteSpace c = false
  end ->
  match rev s with
  | [] => True
  | c :: _ => Conversions.isWhiteSpace c = false
  end ->
  Conversions.trim s = s.
Proof.
  intros H1 H2. unfold Conversions.trim, Conversions.trimEnd.
  rewrite (trimStart_fixed s H1), (trimStart_fixed (rev s) H2).
  apply rev_involutive.
Qed.

Lemma normalizeString_trim (s : Conversions.codeUnits) :
  Conversions.normalizeString (Some s) = Conversions.trim s.
Proof. destruct s; reflexivity. Qed.

(** [normalizeString] strips the white space at both ends and nothing
    else: the input is the result between two runs of white space, the
    result neither starts nor ends with white space, normalizing twice
    is normalizing once, and a missing input gives the empty string as
    the empty input does. *)
Theorem normalizeString_strips_both_ends (s : Conversions.codeUnits) :
  (exists pre post,
      s = (pre ++ Conversions.normalizeString (Some s) ++ post)%list
      /\ Forall (fun c => Conversions.isWhiteSpace c = true) pre
      /\ Forall (fun c => Conversions.isWhiteSpace c = true) post)
  /\ (forall c r, Conversions.normalizeString (Some s) = c :: r ->
                  Conversions.isWhiteSpace c = false)
  /\ (forall c r, Conversions.normalizeString (Some s) = (r ++ [c])%list ->
                  Conversions.isWhiteSpace c = false)
  /\ Conversions.normalizeString (Some (Conversions.normalizeString (Some s)))
     = Conversions.normalizeString (Some s)
  /\ Conversions.normalizeString None = []
  /\ Conversions.normalizeString (Some []) = [].
Proof.
  rewrite !normalizeString_trim.
  destruct (trim_ends s) as [H1 H2].
  split; [|split; [|split; [|split; [|split]]]]; try reflexivity.
  - destruct (trimStart_split s) as (pre & E1 & F1).
    destruct (trimEnd_split (Conversions.trimStart s)) as (post & E2 & F2).
    exists pre, post. unfold Conversions.trim. rewrite <- E2. auto.
  - intros c r E. rewrite E in H1. exact H1.
  - intros c r E. rewrite E, rev_app_distr in H2. exact H2.
  - now apply trim_fixed.
Qed.

(** ** The origin of the frame *)

Lemma zero_eq (z : number) (s : bool) :
  Prim2SF z = S754_zero s -> z = 0 \/ z = -0.
Proof.
  intros H.
  assert (E : z = SF2Prim (S754_zero s))
    by (rewrite <- H; symmetry; apply SF2Prim_Prim2SF).
  rewrite E. destruct s; [right | left]; reflexivity.
Qed.

Lemma mul_zero_finite (a z : number) (s : bool) :
  is_finite a = true -> Prim2SF z = S754_zero s ->
  exists s', Prim2SF (a * z) = S754_zero s'.
Proof.
  intros Ha Hz. rewrite FloatAxioms.mul_spec, Hz. unfold SF64mul, SFmul.
  destruct (finite_cases a Ha) as [[sa ->]|(sa & m & e & ->)]; eauto.
Qed.

(** Interpolating from 0 at a parameter that is a zero gives [+0]. *)
Lemma interpolate_from_zero (r1 t : number) (s : bool) :
  is_finite r1 = true -> Prim2SF t = S754_zero s ->
  D3.interpolateNumber 0 r1 t = 0.
Proof.
  intros Hr Ht. unfold D3.interpolateNumber.
  destruct (mul_zero_finite r1 t s Hr Ht) as [s' Hm].
  destruct (zero_eq _ _ Hm) as [-> | ->];
    destruct (zero_eq _ _ Ht) as [-> | ->]; reflexivity.
Qed.

Lemma leb_50_not_negative (v : number) :
  (50 <=? v) = true -> (v <? 0) = false.
Proof.
  intros H. destruct (v <? 0) eqn:E; [|reflexivity].
  pose proof (leb_ltb_trans 50 v 0 H E) as C. vm_compute in C. discriminate.
Qed.

(** The origin of the component's frame.  The left edge of the plot is
    the temperature of -70 degrees: [x(-70)] is 0 for every plot of finite
    width.  The top edge is the top pressure: [y(topp)] is 0, provided the
    top pressure is a number, the plot has a finite height and the
    logarithm of the engine is finite at the top pressure and has at the
    base pressure a value that differs from it and is not below it. *)
Theorem frame_origin
        (Math_log : number -> number)
        (data : list SkewTMeasurement) (width height : number) :
  is_finite (SkewT.w width) = true ->
  is_finite (SkewT.h height) = true ->
  is_nan (SkewT.topp data) = false ->
  is_finite (Math_log (SkewT.topp data)) = true ->
  is_nan (Math_log SkewT.basep - Math_log (SkewT.topp data)) = false ->
  (Math_log SkewT.basep - Math_log (SkewT.topp data) =? 0) = false ->
  (Math_log SkewT.basep <? Math_log (SkewT.topp data)) = false ->
  SkewT.x width (-70) = 0
  /\ SkewT.y Math_log data height (SkewT.topp data) = 0.
Proof.
  intros Hw Hh Ht Hl Hn Hz Hlt. split.
  - change (SkewT.x width (-70)) with (D3.interpolateNumber 0 (SkewT.w width) 0).
    now apply (interpolate_from_zero _ _ false).
  - unfold SkewT.y, D3.scaleLog. rewrite Ht.
    unfold D3.transformLog.
    assert (H50 : (50 <=? SkewT.topp data) = true).
    { unfold SkewT.topp in *.
      destruct (Math_max_50
                  (DrawFunctions.getSmallestPressureValue (Some data) - 10))
        as [Hm Hle].
      apply Hle. now rewrite <- Hm. }
    rewrite (leb_50_not_negative _ H50).
    unfold D3.bimap. rewrite Hlt. unfold D3.normalize. rewrite Hn, Hz.
    rewrite (sub_self _ Hl).
    destruct (zero_div _ Hn Hz) as [s Hs].
    now apply (interpolate_from_zero _ _ s).
Qed.

Lemma frame_origin_witness :
  SkewT.x 750 (-70) = 0
  /\ SkewT.y Engine.log soundingData 620 (SkewT.topp soundingData) = 0.
Proof.
  apply (frame_origin Engine.log soundingData 750 620); vm_compute; reflexivity.
Defined.

(** ** The probe without a pressure *)

Lemma ltb_nan_l (a b : number) : is_nan a = true -> (a <? b) = false.
Proof.
  intros H. apply is_nan_true in H.
  rewrite FloatAxioms.ltb_spec. unfold SFltb. now rewrite H.
Qed.

Lemma abs_sub_nan (a b : number) :
  is_nan a = true -> is_nan (Math_abs (a - b)) = true.
Proof.
  intros H. apply is_nan_true in H. apply is_nan_true.
  unfold Math_abs. rewrite FloatAxioms.abs_spec, FloatAxioms.sub_spec, H.
  reflexivity.
Qed.

Lemma index_last {A} (l : list A) (d : A) :
  index (l ++ [d])%list (Z.of_nat (List.length (l ++ [d])%list) - 1) = Some d.
Proof.
  unfold index. rewrite length_app. simpl.
  destruct (Z.of_nat (List.length l + 1) - 1 <? 0)%Z eqn:E;
    [apply Z.ltb_lt in E; lia|].
  replace (Z.to_nat (Z.of_nat (List.length l + 1) - 1)) with (List.length l)
    by lia.
  rewrite nth_error_app2 by lia. now rewrite Nat.sub_diag.
Qed.

(** When the pressure under the pointer is [NaN], both handlers read out
    the last sample of the list they search, provided it holds two samples
    or more. *)
Theorem probe_without_pressure_reads_the_last_sample
        (data : list SkewTMeasurement) (y0 : number) :
  is_nan y0 = true ->
  ((2 <= List.length data)%nat ->
   exists l d, data = (l ++ [d])%list /\ DrawFunctions.nearest data y0 = Ok d)
  /\ ((2 <= List.length (SkewT.skewtline data))%nat ->
      exists l d, SkewT.skewtline data = (l ++ [d])%list
                  /\ SkewT.nearest data y0 = Ok (Some d)).
Proof.
  intros Hy.
  assert (B : forall a : list SkewTMeasurement,
             (2 <= List.length a)%nat ->
             D3.bisectLeft press a y0 1 (Z.of_nat (List.length a) - 1)
             = Ok (Z.of_nat (List.length a) - 1)%Z).
  { intros a Ha. unfold D3.bisectLeft. rewrite Hy.
    destruct (1 <? Z.of_nat (List.length a) - 1)%Z eqn:E; [reflexivity|].
    apply Z.ltb_ge in E. f_equal. lia. }
  assert (L : forall a : list SkewTMeasurement,
             (2 <= List.length a)%nat ->
             exists l d0 d, a = (l ++ [d])%list
                            /\ index a (Z.of_nat (List.length a) - 1 - 1) = Some d0
                            /\ index a (Z.of_nat (List.length a) - 1) = Some d).
  { intros a Ha.
    destruct (@exists_last _ a) as (l & d & ->);
      [intros ->; simpl in Ha; lia|].
    rewrite length_app in Ha. simpl in Ha.
    destruct (@exists_last _ l) as (l' & d0 & ->);
      [intros ->; simpl in Ha; lia|].
    exists (l' ++ [d0])%list, d0, d. split; [reflexivity|].
    split; [|apply index_last].
    unfold index. rewrite !length_app. simpl.
    destruct (Z.of_nat (List.length l' + 1 + 1) - 1 - 1 <? 0)%Z eqn:E;
      [apply Z.ltb_lt in E; lia|].
    replace (Z.to_nat (Z.of_nat (List.length l' + 1 + 1) - 1 - 1))
      with (List.length l') by lia.
    rewrite <- app_assoc. rewrite nth_error_app2 by lia.
    now rewrite Nat.sub_diag. }
  split; intros Hlen.
  - destruct (L data Hlen) as (l & d0 & d & E & H0 & H1).
    exists l, d. split; [exact E|].
    unfold DrawFunctions.nearest. rewrite (B data Hlen). simpl.
    rewrite H0, H1.
    now rewrite (ltb_nan_l _ _ (abs_sub_nan y0 (press d0) Hy)).
  - destruct (L _ Hlen) as (l & d0 & d & E & H0 & H1).
    exists l, d. split; [exact E|].
    unfold SkewT.nearest. rewrite (B _ Hlen). simpl.
    destruct (Z.of_nat (List.length (SkewT.skewtline data)) - 1 <=? 0)%Z eqn:G1;
      [apply Z.leb_le in G1; lia|].
    destruct (Z.of_nat (List.length (SkewT.skewtline data))
              <=? Z.of_nat (List.length (SkewT.skewtline data)) - 1)%Z eqn:G2;
      [apply Z.leb_le in G2; lia|].
    simpl. rewrite H0, H1.
    now rewrite (ltb_nan_l _ _ (abs_sub_nan y0 (press d0) Hy)).
Qed.

Lemma probe_without_pressure_reads_the_last_sample_witness :
  ((2 <= List.length profile4)%nat ->
   exists l d, profile4 = (l ++ [d])%list
               /\ DrawFunctions.nearest profile4 nan = Ok d)
  /\ ((2 <= List.length (SkewT.skewtline profile4))%nat ->
      exists l d, SkewT.skewtline profile4 = (l ++ [d])%list
                  /\ SkewT.nearest profile4 nan = Ok (Some d)).
Proof.
  apply (probe_without_pressure_reads_the_last_sample profile4 nan).
  reflexivity.
Defined.

Lemma component_short_profile_no_readout_witness :
  exists t,
    SkewT.run Engine.log Engine.exp (fun _ => tan55) [level 1000 25 20]
              750 620 "kmh"
              [DrawFunctions.Mouseover; DrawFunctions.Mousemove 260;
               DrawFunctions.Mouseout]
              DrawFunctions.initialTooltips = Ok t
    /\ noReadout t.
Proof.
  apply (component_short_profile_no_readout
           Engine.log Engine.exp (fun _ => tan55) [level 1000 25 20] 750 620
           "kmh").
  simpl. lia.
Defined.

(** ** The two copies of the probe *)

(** The component's [mousemove] handler is the handler of
    [drawFunctions.ts] applied to the samples kept for the profile lines,
    over the component's frame and speed unit, with its exception turned
    into a handler that leaves the focus groups as they are. *)
Theorem component_probe_is_guarded_utility_probe
        (Math_log Math_exp Math_tan : number -> number)
        (data : list SkewTMeasurement) (width height : number)
        (speedUnit : string) (py : number) (t : DrawFunctions.tooltips) :
  SkewT.mousemove Math_log Math_exp Math_tan data width height speedUnit py t
  = match DrawFunctions.mousemove
            (SkewT.x width) (SkewT.y Math_log data height) SkewT.basep
            (SkewT.tan Math_tan) (SkewT.w width) speedUnit
            (SkewT.y_invert Math_log Math_exp data height)
            (SkewT.skewtline data) py t with
    | Ok t' => Ok t'
    | TypeError => Ok t
    end.
Proof.
  set (y0 := SkewT.y_invert Math_log Math_exp data height py).
  destruct (Nat.le_gt_cases 2 (List.length (SkewT.skewtline data))) as [Hlen|Hlen].
  - unfold SkewT.mousemove, DrawFunctions.mousemove, SkewT.nearest,
      DrawFunctions.nearest. fold y0.
    set (l := SkewT.skewtline data) in *.
    destruct (bisectLeft_total press l y0 1 (Z.of_nat (List.length l) - 1))
      as [i Hi]; try lia.
    pose proof (bisectLeft_bounds press l y0 1
                  (Z.of_nat (List.length l) - 1) i ltac:(lia) Hi) as Hb.
    rewrite Hi. simpl.
    destruct (i <=? 0)%Z eqn:G1; [apply Z.leb_le in G1; lia|].
    destruct (Z.of_nat (List.length l) <=? i)%Z eqn:G2;
      [apply Z.leb_le in G2; lia|].
    simpl.
    destruct (index l (i - 1)) as [d0|] eqn:N0.
    + destruct (index l i) as [d1|] eqn:N1; [reflexivity|].
      exfalso. unfold index in N1.
      destruct (i <? 0)%Z eqn:E; [apply Z.ltb_lt in E; lia|].
      apply nth_error_None in N1. lia.
    + exfalso. unfold index in N0.
      destruct (i - 1 <? 0)%Z eqn:E; [apply Z.ltb_lt in E; lia|].
      apply nth_error_None in N0. lia.
  - rewrite component_mousemove_short by assumption.
    unfold DrawFunctions.mousemove.
    now rewrite utility_nearest_short.
Qed.
